(** * ffxiSoundConvert: a shallow embedding of [convert_ffxi_audio.py]

    The script walks a folder for FFXI audio containers ([.bgw], [.spw]),
    decodes each one to a [.wav] with an external decoder, encodes the
    [.wav] to [.ogg] with ffmpeg and removes the [.wav].

    The embedding keeps the three functions of the source
    ([find_audio_files], [convert_file], [main]) and makes explicit what
    they act on:
    - paths are [pathlib]'s tuples of parts;
    - the file system is a finite map from paths to entries;
    - [subprocess.run] is a call to an environment oracle, logged;
    - [print] appends a message to the output;
    - exceptions, [sys.exit] included, are the left summand of the
      result of a computation. *)

From Stdlib Require Import Ascii ZArith.
From stdpp Require Import gmap strings list sorting pretty.

Local Open Scope Z_scope.
Local Open Scope nat_scope.

(** ** Strings

    Names and program text are byte strings; on the ASCII range this is
    Python's [str]. *)

Module Str.

Fixpoint take (n : nat) (s : string) : string :=
  match n, s with
  | S n', String c s' => String c (take n' s')
  | _, _ => ""
  end.

Fixpoint drop (n : nat) (s : string) : string :=
  match n, s with
  | S n', String _ s' => drop n' s'
  | _, _ => s
  end.

(** [s.rfind('.')]: the index of the last dot, if any. *)
Fixpoint rfind_dot (s : string) : option nat :=
  match s with
  | "" => None
  | String c s' =>
      match rfind_dot s' with
      | Some i => Some (S i)
      | None => if Ascii.eqb c "." then Some 0 else None
      end
  end.

(** [c.lower()] on one ASCII character. *)
Definition lower_ascii (c : ascii) : ascii :=
  let n := nat_of_ascii c in
  if (65 <=? n) && (n <=? 90) then ascii_of_nat (n + 32) else c.

(** [s.lower()] *)
Fixpoint lower (s : string) : string :=
  match s with
  | "" => ""
  | String c s' => String (lower_ascii c) (lower s')
  end.

(** [s.endswith(e)] *)
Definition endswith (s e : string) : bool :=
  bool_decide (drop (String.length s - String.length e) s = e).

(** Python's [str.isspace] on one ASCII character (what [strip]
    removes). *)
Definition is_space (c : ascii) : bool :=
  let n := nat_of_ascii c in
  ((9 <=? n) && (n <=? 13)) || ((28 <=? n) && (n <=? 32)).

Fixpoint lstrip (s : string) : string :=
  match s with
  | String c s' => if is_space c then lstrip s' else s
  | "" => ""
  end.

(** [s.strip()] *)
Definition strip (s : string) : string :=
  String.rev (lstrip (String.rev (lstrip s))).

(** [s.split('/')] *)
Fixpoint split_slash (s : string) : list string :=
  match s with
  | "" => [""]
  | String c s' =>
      if Ascii.eqb c "/" then "" :: split_slash s'
      else match split_slash s' with
           | x :: l => String c x :: l
           | [] => [String c ""]
           end
  end.

(** [fnmatch.fnmatchcase(s, pat)] for patterns made of literal
    characters and [*], the only ones the script uses.  The match is
    case sensitive, as [Path.rglob] is on a POSIX file system. *)
Fixpoint glob_match (pat s : string) : bool :=
  match pat with
  | "" => match s with "" => true | _ => false end
  | String p pat' =>
      if Ascii.eqb p "*" then
        (fix star (t : string) : bool :=
           glob_match pat' t ||
           match t with
           | "" => false
           | String _ t' => star t'
           end) s
      else
        match s with
        | String c s' => Ascii.eqb p c && glob_match pat' s'
        | "" => false
        end
  end.

End Str.

(** ** Exceptions

    The exceptions the script can meet.  [SystemExit] is what [sys.exit]
    raises; it is not a subclass of [Exception], so an
    [except Exception] clause lets it through. *)

Inductive Exn : Type :=
| FileNotFoundError (filename : string)
| OSError (msg : string)
| ValueError (msg : string)
| OtherException (msg : string)
| SystemExit (code : Z).

Definition is_Exception (e : Exn) : bool :=
  match e with
  | SystemExit _ => false
  | _ => true
  end.

(** [str(e)] *)
Definition exn_str (e : Exn) : string :=
  match e with
  | FileNotFoundError f => "[Errno 2] No such file or directory: '" +:+ f +:+ "'"
  | OSError m | ValueError m | OtherException m => m
  | SystemExit _ => ""
  end.

(** ** Paths

    A path is [pathlib]'s tuple of parts; an absolute POSIX path has the
    anchor ["/"] as its first part.  The functions below are those of
    [pathlib.PurePosixPath] the script calls. *)

Abbreviation Path := (list string).

Module Pth.

(** [Path(s)]: split on ["/"], drop empty and ["."] components, keep
    the root (a path that starts with exactly two slashes, which POSIX
    keeps apart, is read as one with the plain root). *)
Definition of_string (s : string) : Path :=
  let comps :=
    filter (λ c, c ≠ "" ∧ c ≠ ".") (Str.split_slash s) in
  match s with
  | String c _ => if Ascii.eqb c "/" then "/" :: comps else comps
  | "" => comps
  end.

Definition is_absolute (p : Path) : bool :=
  match p with
  | x :: _ => bool_decide (x = "/")
  | [] => false
  end.

(** [str(p)] *)
Definition str (p : Path) : string :=
  match p with
  | [] => "."
  | x :: rest =>
      if bool_decide (x = "/") then "/" +:+ String.concat "/" rest
      else String.concat "/" p
  end.

(** [p.name]: the last part, empty for the bare anchor. *)
Definition name (p : Path) : string :=
  if bool_decide (p = ["/"]) then "" else default "" (last p).

(** [PurePath.suffix] of a file name: from the last dot on, unless
    that dot is the first or the last character. *)
Definition name_suffix (nm : string) : string :=
  match Str.rfind_dot nm with
  | Some i =>
      if (0 <? i) && (i <? String.length nm - 1) then Str.drop i nm else ""
  | None => ""
  end.

(** [p.suffix] *)
Definition suffix (p : Path) : string := name_suffix (name p).

Fixpoint has_slash (s : string) : bool :=
  match s with
  | "" => false
  | String c s' => Ascii.eqb c "/" || has_slash s'
  end.

Definition valid_suffix (s : string) : bool :=
  negb (has_slash s) &&
  match s with
  | "" => true
  | String c s' => Ascii.eqb c "." && negb (bool_decide (s' = ""))
  end.

(** [p.with_suffix(s)] *)
Definition with_suffix (p : Path) (s : string) : Exn + Path :=
  if negb (valid_suffix s) then inl (ValueError ("Invalid suffix " +:+ s))
  else
    let nm := name p in
    if bool_decide (nm = "") then inl (ValueError (str p +:+ " has an empty name"))
    else
      let old := name_suffix nm in
      let stem := Str.take (String.length nm - String.length old) nm in
      inr (removelast p ++ [stem +:+ s]).

Fixpoint strip_prefix (pre p : Path) : option Path :=
  match pre, p with
  | [], _ => Some p
  | x :: pre', y :: p' =>
      if bool_decide (x = y) then strip_prefix pre' p' else None
  | _ :: _, [] => None
  end.

(** [p.relative_to(folder)] *)
Definition relative_to (p folder : Path) : Exn + Path :=
  match strip_prefix folder p with
  | Some rel =>
      if is_absolute rel
      then inl (ValueError (str p +:+ " is not in the subpath of " +:+ str folder))
      else inr rel
  | None => inl (ValueError (str p +:+ " is not in the subpath of " +:+ str folder))
  end.

(** [p < q] and [p <= q] on paths compare the tuples of parts, part
    by part. *)
Fixpoint leb (p q : Path) : bool :=
  match p, q with
  | [], _ => true
  | _ :: _, [] => false
  | x :: p', y :: q' =>
      match String.compare x y with
      | Lt => true
      | Gt => false
      | Eq => leb p' q'
      end
  end.

Definition le (p q : Path) : Prop := leb p q.

#[global] Instance le_dec : RelDecision le.
Proof. intros p q. unfold le. apply _. Defined.

End Pth.

(** ** File system, external commands, output *)

(** What a path names: a regular file with its content, a directory, or
    a regular file that cannot be removed (its directory is not
    writable, say).  Distinct paths name distinct entries (no links). *)
Inductive Entry : Type :=
| File (content : string)
| Dir
| Locked (content : string).

#[global] Instance Entry_eq_dec : EqDecision Entry.
Proof. solve_decision. Defined.

Abbreviation FS := (gmap (list string) Entry).

(** The four ways the script calls [subprocess.run]. *)
Inductive Cmd : Type :=
| Decode (vgmstream_cmd : string) (wav_path input_path : Path)
| Encode (wav_path ogg_path : Path)
| ProbeDecoder (vgmstream_cmd : string)
| ProbeEncoder.

#[global] Instance Cmd_eq_dec : EqDecision Cmd.
Proof. solve_decision. Defined.

(** The argument vector each call passes. *)
Definition argv (c : Cmd) : list string :=
  match c with
  | Decode vgmstream_cmd wav_path input_path =>
      [vgmstream_cmd; "-o"; Pth.str wav_path; Pth.str input_path]
  | Encode wav_path ogg_path =>
      ["ffmpeg"; "-i"; Pth.str wav_path; "-c:a"; "libvorbis"; "-q:a"; "4";
       Pth.str ogg_path; "-y"; "-loglevel"; "error"]
  | ProbeDecoder vgmstream_cmd => [vgmstream_cmd]
  | ProbeEncoder => ["ffmpeg"; "-version"]
  end.

(** What [subprocess.run] does: the process ran to its end and left a
    return code, its error output and a file system; or the executable
    was not found and nothing ran ([FileNotFoundError]); or the call
    raised something else (a [PermissionError] at launch, a
    [UnicodeDecodeError] on the captured output, ...), the process
    having possibly run. *)
Inductive RunResult : Type :=
| Completed (returncode : Z) (stderr : string) (fs' : FS)
| NotFound (filename : string)
| Crashed (msg : string) (fs' : FS).

(** The environment decides, from the calls made so far and the current
    file system, what a call does. *)
Definition Env : Type := list Cmd → FS → Cmd → RunResult.

(** The [print] calls of the script, one constructor for each. *)
Inductive Msg : Type :=
| MSkip (name : string)
| MFailDecode (stderr : string)
| MFailEncode (stderr : string)
| MOk (name : string)
| MCmdNotFound (filename : string)
| MError (msg : string)
| MUsage (argv0 : string)
| MFolderNotFound (folder : Path)
| MNotADirectory (folder : Path)
| MChecking
| MDecoderOk (vgmstream_cmd : string)
| MDecoderMissing
| MEncoderOk
| MEncoderMissing
| MBlank
| MScanning (folder : Path)
| MFound (bgw_count spw_count total : nat)
| MNothing
| MConverting
| MProgress (i n : nat) (rel_path : Path)
| MSkipExists
| MSummary (converted skipped failed : nat).

#[global] Instance Msg_eq_dec : EqDecision Msg.
Proof. solve_decision. Defined.

Record World : Type := mkWorld {
  fs : FS;
  calls : list Cmd;
  out : list Msg
}.

Definition set_fs (f : FS) (w : World) : World :=
  {| fs := f; calls := calls w; out := out w |}.

(** ** The monad of the script: state and exceptions *)

Definition M (A : Type) : Type := World → (Exn + A) * World.

Definition ret {A} (a : A) : M A := λ w, (inr a, w).

Definition raise {A} (e : Exn) : M A := λ w, (inl e, w).

Definition bind {A B} (m : M A) (k : A → M B) : M B :=
  λ w, match m w with
       | (inr a, w') => k a w'
       | (inl e, w') => (inl e, w')
       end.

(** [try: m  except ...: h e], where [h] decides which exceptions it
    takes. *)
Definition try_except {A} (m : M A) (h : Exn → option (M A)) : M A :=
  λ w, match m w with
       | (inr a, w') => (inr a, w')
       | (inl e, w') =>
           match h e with
           | Some k => k w'
           | None => (inl e, w')
           end
       end.

Definition lift {A} (r : Exn + A) : M A := λ w, (r, w).

Declare Scope py_scope.
Delimit Scope py_scope with py.
Notation "x <- m ;; k" := (bind m (λ x, k))
  (at level 20, m at level 99, k at level 200, only parsing) : py_scope.
Notation "' x <- m ;; k" := (bind m (λ x, k))
  (at level 20, x pattern, m at level 99, k at level 200, only parsing) : py_scope.
Notation "m ;; k" := (bind m (λ _, k))
  (at level 100, k at level 200, only parsing, right associativity) : py_scope.
Local Open Scope py_scope.

Definition print (m : Msg) : M unit :=
  λ w, (inr tt, {| fs := fs w; calls := calls w; out := out w ++ [m] |}).

(** [p.exists()] *)
Definition exists_ (p : Path) : M bool :=
  λ w, (inr (bool_decide (is_Some (fs w !! p))), w).

(** [p.is_dir()] *)
Definition is_dir (p : Path) : M bool :=
  λ w, (inr (bool_decide (fs w !! p = Some Dir)), w).

(** [p.unlink()]: removes a regular file; a missing path raises
    [FileNotFoundError], a directory [IsADirectoryError] and a file
    that cannot be removed [PermissionError], both of them [OSError]. *)
Definition unlink (p : Path) : M unit :=
  λ w, match fs w !! p with
       | Some (File _) => (inr tt, set_fs (delete p (fs w)) w)
       | Some Dir => (inl (OSError ("[Errno 21] Is a directory: '" +:+ Pth.str p +:+ "'")), w)
       | Some (Locked _) =>
           (inl (OSError ("[Errno 13] Permission denied: '" +:+ Pth.str p +:+ "'")), w)
       | None => (inl (FileNotFoundError (Pth.str p)), w)
       end.

(** [subprocess.run(argv c, capture_output=True, text=True)]; the
    result carries [returncode] and [stderr]. *)
Definition subprocess_run (env : Env) (c : Cmd) : M (Z * string) :=
  λ w,
    let w1 := {| fs := fs w; calls := calls w ++ [c]; out := out w |} in
    match env (calls w) (fs w) c with
    | Completed rc err fs' => (inr (rc, err), set_fs fs' w1)
    | NotFound filename => (inl (FileNotFoundError filename), w1)
    | Crashed msg fs' => (inl (OtherException msg), set_fs fs' w1)
    end.

(** ** [convert_file] (lines 23-78) *)

Definition convert_file (env : Env) (input_path : Path) (vgmstream_cmd : string)
  : M bool :=
  wav_path <- lift (Pth.with_suffix input_path ".wav") ;;
  ogg_path <- lift (Pth.with_suffix input_path ".ogg") ;;
  skip <- exists_ ogg_path ;;
  if skip then
    print (MSkip (Pth.name ogg_path)) ;;
    ret true
  else
    try_except
      ('(returncode, stderr) <- subprocess_run env (Decode vgmstream_cmd wav_path input_path) ;;
       wav_ok <- exists_ wav_path ;;
       if negb (returncode =? 0)%Z || negb wav_ok then
         print (MFailDecode (Str.strip stderr)) ;;
         ret false
       else
         '(returncode, stderr) <- subprocess_run env (Encode wav_path ogg_path) ;;
         ogg_ok <- exists_ ogg_path ;;
         if negb (returncode =? 0)%Z || negb ogg_ok then
           print (MFailEncode (Str.strip stderr)) ;;
           wav_left <- exists_ wav_path ;;
           (if wav_left then unlink wav_path else ret tt) ;;
           ret false
         else
           unlink wav_path ;;
           print (MOk (Pth.name ogg_path)) ;;
           ret true)
      (λ e,
         match e with
         | FileNotFoundError filename =>
             Some (print (MCmdNotFound filename) ;;
                   ret false)
         | _ =>
             if is_Exception e then
               Some (print (MError (exn_str e)) ;;
                     wav_left <- exists_ wav_path ;;
                     (if wav_left then unlink wav_path else ret tt) ;;
                     ret false)
             else None
         end).

(** ** [find_audio_files] (lines 15-20) *)

(** [p] lies strictly below [folder]. *)
Definition below (folder p : Path) : bool :=
  match Pth.relative_to p folder with
  | inr (_ :: _) => true
  | _ => false
  end.

(** [folder.rglob(pat)] for a pattern of one component: every entry
    below [folder], at any depth, whose name matches.  The order is the
    file system's own; directories are entries like files. *)
Definition rglob (f : FS) (folder : Path) (pat : string) : list Path :=
  filter (λ p, below folder p ∧ Str.glob_match pat (Pth.name p))
         (elements (dom f)).

Definition patterns : list string := ["*.bgw"; "*.spw"; "*.BGW"; "*.SPW"].

(** [sorted(files)]: paths are totally ordered, so the sorted list does
    not depend on the sorting algorithm. *)
Definition sorted (files : list Path) : list Path := merge_sort Pth.le files.

Definition find_audio_files (f : FS) (folder : Path) : list Path :=
  let files := foldl (λ files ext, files ++ rglob f folder ext) [] patterns in
  sorted files.

(** ** [main] (lines 81-182) *)

Record Tally : Type := mkTally {
  converted : nat;
  skipped : nat;
  failed : nat
}.

Definition add_converted (t : Tally) : Tally :=
  {| converted := converted t + 1; skipped := skipped t; failed := failed t |}.
Definition add_skipped (t : Tally) : Tally :=
  {| converted := converted t; skipped := skipped t + 1; failed := failed t |}.
Definition add_failed (t : Tally) : Tally :=
  {| converted := converted t; skipped := skipped t; failed := failed t + 1 |}.

(** The body of the loop (lines 162-174) for the [i]-th of [n] files. *)
Definition process_one (env : Env) (vgmstream_cmd : string) (sound_folder : Path)
    (n i : nat) (input_path : Path) (t : Tally) : M Tally :=
  rel_path <- lift (Pth.relative_to input_path sound_folder) ;;
  print (MProgress i n rel_path) ;;
  ogg_path <- lift (Pth.with_suffix input_path ".ogg") ;;
  present <- exists_ ogg_path ;;
  if present then
    print MSkipExists ;;
    ret (add_skipped t)
  else
    ok <- convert_file env input_path vgmstream_cmd ;;
    if ok then ret (add_converted t) else ret (add_failed t).

(** The loop (line 161): [for i, input_path in enumerate(audio_files, 1)]. *)
Fixpoint process_files (env : Env) (vgmstream_cmd : string) (sound_folder : Path)
    (n i : nat) (audio_files : list Path) (t : Tally) : M Tally :=
  match audio_files with
  | [] => ret t
  | input_path :: rest =>
      t' <- process_one env vgmstream_cmd sound_folder n i input_path t ;;
      process_files env vgmstream_cmd sound_folder n (S i) rest t'
  end.

Definition is_bgw (f : Path) : Prop := Str.lower (Pth.suffix f) = ".bgw".
Definition is_spw (f : Path) : Prop := Str.lower (Pth.suffix f) = ".spw".

(** [sys.argv[2] if len(sys.argv) > 2 else 'vgmstream-cli'], on what
    follows the folder argument. *)
Definition vgmstream_arg (rest : list string) : string :=
  match rest with
  | c :: _ => c
  | [] => "vgmstream-cli"
  end.

(** [main], with [sys.argv] as [argv0 :: args]. *)
Definition main (env : Env) (argv0 : string) (args : list string) : M unit :=
  match args with
  | [] =>
      print (MUsage argv0) ;;
      raise (SystemExit 1)
  | arg1 :: rest =>
      let sound_folder := Pth.of_string arg1 in
      let vgmstream_cmd := vgmstream_arg rest in
      found <- exists_ sound_folder ;;
      (if negb found then
         print (MFolderNotFound sound_folder) ;;
         raise (SystemExit 1)
       else ret tt) ;;
      isdir <- is_dir sound_folder ;;
      (if negb isdir then
         print (MNotADirectory sound_folder) ;;
         raise (SystemExit 1)
       else ret tt) ;;
      print MChecking ;;
      try_except
        (subprocess_run env (ProbeDecoder vgmstream_cmd) ;;
         print (MDecoderOk vgmstream_cmd))
        (λ e, match e with
              | FileNotFoundError _ =>
                  Some (print MDecoderMissing ;;
                        raise (SystemExit 1))
              | _ => None
              end) ;;
      try_except
        (subprocess_run env ProbeEncoder ;;
         print MEncoderOk)
        (λ e, match e with
              | FileNotFoundError _ =>
                  Some (print MEncoderMissing ;;
                        raise (SystemExit 1))
              | _ => None
              end) ;;
      print MBlank ;;
      print (MScanning sound_folder) ;;
      audio_files <- (λ w, (inr (find_audio_files (fs w) sound_folder), w)) ;;
      let bgw_count := length (filter is_bgw audio_files) in
      let spw_count := length (filter is_spw audio_files) in
      print (MFound bgw_count spw_count (length audio_files)) ;;
      match audio_files with
      | [] =>
          print MNothing ;;
          raise (SystemExit 0)
      | _ :: _ =>
          print MConverting ;;
          t <- process_files env vgmstream_cmd sound_folder
                 (length audio_files) 1 audio_files (mkTally 0 0 0) ;;
          print (MSummary (converted t) (skipped t) (failed t))
      end
  end.

(** The status the interpreter hands back to the shell: 0 when the
    script runs to its end, the code of a [SystemExit], 1 after an
    exception nobody caught. *)
Definition exit_status (r : Exn + unit) : Z :=
  match r with
  | inr _ => 0
  | inl (SystemExit code) => code
  | inl _ => 1
  end.

(** The text each message stands for, line by line. *)
Definition rule : string := "==================================================".

Definition render (m : Msg) : list string :=
  match m with
  | MSkip name => ["  [SKIP] " +:+ name +:+ " already exists"]
  | MFailDecode stderr => ["  [FAIL] vgmstream failed: " +:+ stderr]
  | MFailEncode stderr => ["  [FAIL] ffmpeg failed: " +:+ stderr]
  | MOk name => ["  [OK] " +:+ name]
  | MCmdNotFound filename => ["  [ERROR] Command not found: " +:+ filename]
  | MError msg => ["  [ERROR] " +:+ msg]
  | MUsage argv0 =>
      ["FFXI Audio Converter"; "===================="; "";
       "Converts .bgw and .spw files to .ogg format"; "";
       "Usage: " +:+ argv0 +:+ " <sound_folder> [vgmstream_path]";
       "Download from: https://github.com/vgmstream/vgmstream/releases"; "";
       "Arguments:";
       "  sound_folder    - Path to FFXI sound folder";
       "  vgmstream_path  - Optional path to vgmstream-cli (default: vgmstream-cli)";
       ""; "Example:";
       "  " +:+ argv0 +:+ " '/home/user/FINAL FANTASY XI/sound'";
       "  " +:+ argv0 +:+ " '/home/user/FINAL FANTASY XI/sound' ./vgmstream-cli"]
  | MFolderNotFound folder => ["Error: Folder not found: " +:+ Pth.str folder]
  | MNotADirectory folder => ["Error: Not a directory: " +:+ Pth.str folder]
  | MChecking => ["Checking dependencies..."]
  | MDecoderOk vgmstream_cmd => ["  vgmstream-cli: OK (" +:+ vgmstream_cmd +:+ ")"]
  | MDecoderMissing =>
      ["  vgmstream-cli: NOT FOUND"; "";
       "Download from: https://github.com/vgmstream/vgmstream/releases";
       "  - Download vgmstream-linux-cli.tar.gz";
       "  - Extract and provide path as second argument"]
  | MEncoderOk => ["  ffmpeg: OK"]
  | MEncoderMissing =>
      ["  ffmpeg: NOT FOUND"; ""; "Install with: sudo apt install ffmpeg"]
  | MBlank => [""]
  | MScanning folder => ["Scanning: " +:+ Pth.str folder]
  | MFound bgw_count spw_count total =>
      ["  Found " +:+ pretty bgw_count +:+ " .bgw files (music)";
       "  Found " +:+ pretty spw_count +:+ " .spw files (sound effects)";
       "  Total: " +:+ pretty total +:+ " files"; ""]
  | MNothing => ["No files to convert."]
  | MConverting => ["Converting..."; rule]
  | MProgress i n rel_path =>
      ["[" +:+ pretty i +:+ "/" +:+ pretty n +:+ "] " +:+ Pth.str rel_path]
  | MSkipExists => ["  [SKIP] Already exists"]
  | MSummary converted skipped failed =>
      [""; rule; "Complete!";
       "  Converted: " +:+ pretty converted;
       "  Skipped:   " +:+ pretty skipped;
       "  Failed:    " +:+ pretty failed]
  end.

(** [sys.stdout] after the run. *)
Definition stdout (w : World) : list string := concat (render <$> out w).

(** ** Vocabulary of the statements *)

(** A pattern without wildcard. *)
Fixpoint star_free (e : string) : bool :=
  match e with
  | "" => true
  | String c e' => negb (Ascii.eqb c "*") && star_free e'
  end.

(** A name that one of the four patterns matches: it ends in one of the
    four extensions, as they are spelt. *)
Definition audio_name (nm : string) : Prop :=
  ∃ ext, ext ∈ [".bgw"; ".spw"; ".BGW"; ".SPW"] ∧ Str.endswith nm ext = true.

(** An input of the converter: a path whose extension is [.bgw] or
    [.spw] up to case (the test of lines 141-142), or one that
    discovery returns. *)
Definition input_file (p : Path) : Prop :=
  is_bgw p ∨ is_spw p ∨ audio_name (Pth.name p).

(** [q] is the [.wav] or the [.ogg] path of [p]. *)
Definition derived (p q : Path) : Prop :=
  Pth.with_suffix p ".wav" = inr q ∨ Pth.with_suffix p ".ogg" = inr q.

(** The output path of [p] is there. *)
Definition has_ogg (f : FS) (p : Path) : Prop :=
  ∃ ogg_path, Pth.with_suffix p ".ogg" = inr ogg_path ∧ is_Some (f !! ogg_path).

(** The file system a call leaves. *)
Definition fs_after (r : RunResult) (f : FS) : FS :=
  match r with
  | Completed _ _ f' | Crashed _ f' => f'
  | NotFound _ => f
  end.

(** Command [c] never touches path [p]. *)
Definition leaves (env : Env) (c : Cmd) (p : Path) : Prop :=
  ∀ h f, fs_after (env h f c) f !! p = f !! p.

(** Where a command is told to write: the decoder after [-o], the
    encoder at its output argument; the probes nowhere. *)
Definition writes (c : Cmd) : list Path :=
  match c with
  | Decode _ wav_path _ => [wav_path]
  | Encode _ ogg_path => [ogg_path]
  | ProbeDecoder _ | ProbeEncoder => []
  end.

(** The tools write only where they are told to. *)
Definition tool_contract (env : Env) : Prop :=
  ∀ c p, p ∉ writes c → leaves env c p.

(** The two probes can always be launched. *)
Definition probes_launch (env : Env) : Prop :=
  ∀ h f c, writes c = [] → ∃ rc err f', env h f c = Completed rc err f'.

(** The files counted so far. *)
Definition tally_total (t : Tally) : nat := converted t + skipped t + failed t.

(** [k] more files skipped. *)
Definition skip_all (k : nat) (t : Tally) : Tally :=
  {| converted := converted t; skipped := skipped t + k; failed := failed t |}.

(** The start-up errors of [main]: no argument; a folder that does not
    exist, or is not a directory; a tool whose probe raises
    [FileNotFoundError] (the encoder is probed once the decoder's probe
    has returned). *)
Definition setup_error (env : Env) (args : list string) (w : World) : Prop :=
  match args with
  | [] => True
  | arg1 :: rest =>
      let sound_folder := Pth.of_string arg1 in
      let vgmstream_cmd := vgmstream_arg rest in
      ¬ is_Some (fs w !! sound_folder) ∨
      fs w !! sound_folder ≠ Some Dir ∨
      (∃ filename,
         env (calls w) (fs w) (ProbeDecoder vgmstream_cmd) = NotFound filename) ∨
      (∃ rc err f1 filename,
         env (calls w) (fs w) (ProbeDecoder vgmstream_cmd) = Completed rc err f1 ∧
         env (calls w ++ [ProbeDecoder vgmstream_cmd]) f1 ProbeEncoder
         = NotFound filename)
  end.




(** ** Scenarios *)

Definition prog : string := "convert_ffxi_audio.py".

(** A decoder and an encoder that do their work. *)
Definition env_ok : Env := λ _ f c,
  match c with
  | Decode _ wav_path _ => Completed 0 "" (<[wav_path := File "RIFF"]> f)
  | Encode _ ogg_path => Completed 0 "" (<[ogg_path := File "OggS"]> f)
  | ProbeDecoder _ | ProbeEncoder => Completed 0 "" f
  end.

(** The decoder works; ffmpeg is not installed. *)
Definition env_no_ffmpeg : Env := λ _ f c,
  match c with
  | Decode _ wav_path _ => Completed 0 "" (<[wav_path := File "RIFF"]> f)
  | Encode _ _ | ProbeEncoder => NotFound "ffmpeg"
  | ProbeDecoder _ => Completed 0 "" f
  end.

(** The decoder exits with 0 and writes nothing. *)
Definition env_silent_decoder : Env := λ _ f _, Completed 0 "" f.

(** The decoder is on disk without the executable bit: launching it
    raises [PermissionError]. *)
Definition env_no_exec : Env := λ _ f c,
  match c with
  | Decode _ _ _ | ProbeDecoder _ =>
      Crashed "[Errno 13] Permission denied: './vgmstream-cli'" f
  | Encode _ _ | ProbeEncoder => Completed 0 "" f
  end.


Definition root : Path := ["/"; "snd"].

(** The tree of the discovery example: [a.bgw], [b.SPW], [c.txt]. *)
Definition fs_tree : FS :=
  {[ root := Dir;
     root ++ ["a.bgw"] := File "bgw";
     root ++ ["b.SPW"] := File "spw";
     root ++ ["c.txt"] := File "txt" ]}.

(** Files at several depths, and a directory with the name of an audio
    file. *)
Definition fs_nested : FS :=
  {[ root := Dir;
     root ++ ["z.spw"] := File "spw";
     root ++ ["bgm"] := Dir;
     root ++ ["bgm"; "music101.bgw"] := File "bgw";
     root ++ ["bgm"; "old"] := Dir;
     root ++ ["bgm"; "old"; "a.BGW"] := File "bgw";
     root ++ ["bgm"; "old"; "a.wav"] := File "RIFF";
     root ++ ["dir.bgw"] := Dir;
     ["/"; "other"; "b.bgw"] := File "bgw" ]}.

(** A file whose extension is in mixed case. *)
Definition fs_mixed : FS :=
  {[ root := Dir; root ++ ["x.Bgw"] := File "bgw" ]}.


(** A tree in which [a.bgw] is already converted. *)
Definition fs_done : FS :=
  {[ root := Dir;
     root ++ ["a.bgw"] := File "bgw";
     root ++ ["a.ogg"] := File "OggS" ]}.

Definition world (f : FS) : World := {| fs := f; calls := []; out := [] |}.

(** ** Vocabulary of the further properties *)

(** The messages [convert_file] prints. *)
Definition is_convert_msg (m : Msg) : bool :=
  match m with
  | MSkip _ | MFailDecode _ | MFailEncode _ | MOk _ | MCmdNotFound _ | MError _ => true
  | _ => false
  end.

(** The two messages that go with [return True]. *)
Definition reports_success (m : Msg) : bool :=
  match m with
  | MSkip _ | MOk _ => true
  | _ => false
  end.

(** The lines that close the turn of a file in the loop: converted,
    skipped, failed. *)
Definition is_ok_line (m : Msg) : bool :=
  match m with
  | MOk _ => true
  | _ => false
  end.

Definition is_skip_line (m : Msg) : bool :=
  match m with
  | MSkipExists => true
  | _ => false
  end.

Definition is_fail_line (m : Msg) : bool :=
  match m with
  | MFailDecode _ | MFailEncode _ | MCmdNotFound _ | MError _ => true
  | _ => false
  end.

(** The line that closes the turn of [p]: the skip of line 168, the
    [OK] of [convert_file] with the name of its [.ogg], or one of the
    failures. *)
Definition outcome_line (p : Path) (m : Msg) : Prop :=
  m = MSkipExists ∨
  (∃ ogg_path, Pth.with_suffix p ".ogg" = inr ogg_path ∧
               m = MOk (Pth.name ogg_path)) ∨
  is_fail_line m = true.

(** What the loop prints when it runs to its end: for each file, from
    the [i]-th of [n] on, its progress line and then the line of its
    outcome. *)
Fixpoint report (n i : nat) (rels : list Path) (ms : list Msg) : list Msg :=
  match rels, ms with
  | rel_path :: rels', m :: ms' =>
      MProgress i n rel_path :: m :: report n (S i) rels' ms'
  | _, _ => []
  end.

(** [c] is one of the two commands [convert_file] launches for [p]. *)
Definition file_call (vgmstream_cmd : string) (p : Path) (c : Cmd) : Prop :=
  ∃ wav_path ogg_path,
    Pth.with_suffix p ".wav" = inr wav_path ∧
    Pth.with_suffix p ".ogg" = inr ogg_path ∧
    (c = Decode vgmstream_cmd wav_path p ∨ c = Encode wav_path ogg_path).

(** The names that are an extension and nothing else. *)
Definition bare_names : list string := [".bgw"; ".spw"; ".BGW"; ".SPW"].

(** An encoder that writes the [.ogg] and removes its input. *)
Definition env_encoder_eats_wav : Env := λ _ f c,
  match c with
  | Decode _ wav_path _ => Completed 0 "" (<[wav_path := File "RIFF"]> f)
  | Encode wav_path ogg_path =>
      Completed 0 "" (<[ogg_path := File "OggS"]> (delete wav_path f))
  | ProbeDecoder _ | ProbeEncoder => Completed 0 "" f
  end.


(** The decoder exits with 0 and writes nothing; the encoder works. *)
Definition env_idle_decoder : Env := λ _ f c,
  match c with
  | Encode _ ogg_path => Completed 0 "" (<[ogg_path := File "OggS"]> f)
  | Decode _ _ _ | ProbeDecoder _ | ProbeEncoder => Completed 0 "" f
  end.

(** The [.wav] of an earlier run is still beside [a.bgw]. *)
Definition fs_stale_wav : FS :=
  {[ root := Dir;
     root ++ ["a.bgw"] := File "bgw";
     root ++ ["a.wav"] := File "RIFF, earlier" ]}.

(** The same, and that [.wav] cannot be removed. *)
Definition fs_locked_wav : FS :=
  {[ root := Dir;
     root ++ ["a.bgw"] := File "bgw";
     root ++ ["a.wav"] := Locked "RIFF, earlier" ]}.

(** Two inputs with one stem. *)
Definition fs_same_stem : FS :=
  {[ root := Dir;
     root ++ ["a.bgw"] := File "bgw";
     root ++ ["a.spw"] := File "spw" ]}.

(** A file named [.bgw], beside [a.bgw]. *)
Definition fs_hidden : FS :=
  {[ root := Dir;
     root ++ [".bgw"] := File "bgw";
     root ++ ["a.bgw"] := File "bgw" ]}.

(** ** Tactics *)

Ltac unfold_M :=
  unfold bind, lift, ret, raise, try_except, exists_, is_dir, print,
    subprocess_run, unlink, set_fs in *.

(** Every way through a computation. *)
Ltac run_cases := repeat (case_match; simplify_eq/=).

(** Runs a computation through the checks the hypotheses decide. *)
Ltac py_run :=
  unfold_M;
  repeat match goal with
         | H : _ !! _ = _ |- _ => rewrite H
         | H : Pth.with_suffix _ _ = _ |- _ => rewrite H
         | H : Pth.relative_to _ _ = _ |- _ => rewrite H
         | H : _ = Completed _ _ _ |- _ => rewrite H
         | H : _ = NotFound _ |- _ => rewrite H
         | H : _ = Crashed _ _ |- _ => rewrite H
         | |- _ => rewrite bool_decide_eq_true_2 by eauto
         | |- _ => rewrite bool_decide_eq_false_2 by (first [by intros []|done])
         | |- _ => progress simpl
         end.

Ltac main_run := unfold main; py_run.

(** * Properties *)

(** ** The library functions on examples *)

Example lower_SPW : Str.lower ".SPW" = ".spw".
Proof. reflexivity. Qed.

Example glob_bgw : Str.glob_match "*.bgw" "music101.bgw" = true.
Proof. reflexivity. Qed.

Example glob_case : Str.glob_match "*.bgw" "music101.Bgw" = false.
Proof. reflexivity. Qed.

Example strip_msg :
  Str.strip ("  no such file" +:+ String "010" "") = "no such file".
Proof. reflexivity. Qed.

Example split_abs : Str.split_slash "/snd/a.bgw" = [""; "snd"; "a.bgw"].
Proof. reflexivity. Qed.

Example with_suffix_bgw :
  Pth.with_suffix ["/"; "snd"; "music101.bgw"] ".wav" = inr ["/"; "snd"; "music101.wav"].
Proof. reflexivity. Qed.

Example with_suffix_two_dots :
  Pth.with_suffix ["snd"; "a.tar.BGW"] ".ogg" = inr ["snd"; "a.tar.ogg"].
Proof. reflexivity. Qed.

Example with_suffix_hidden :
  Pth.with_suffix ["snd"; ".bgw"] ".wav" = inr ["snd"; ".bgw.wav"].
Proof. reflexivity. Qed.

Example with_suffix_root :
  Pth.with_suffix ["/"] ".wav" = inl (ValueError "/ has an empty name").
Proof. reflexivity. Qed.

Example of_string_abs : Pth.of_string "/home/u/sound/" = ["/"; "home"; "u"; "sound"].
Proof. reflexivity. Qed.

Example str_abs : Pth.str ["/"; "home"; "u"] = "/home/u".
Proof. reflexivity. Qed.

Example path_order :
  Pth.leb ["a"; "b"] ["a.b"; "c"] = true ∧ Pth.leb ["a.b"; "c"] ["a"; "b"] = false.
Proof. split; reflexivity. Qed.

(** ** The script on examples *)

Example find_audio_files_nested :
  find_audio_files fs_nested root
  = [root ++ ["bgm"; "music101.bgw"]; root ++ ["bgm"; "old"; "a.BGW"];
     root ++ ["dir.bgw"]; root ++ ["z.spw"]].
Proof. by vm_compute. Qed.

Example find_audio_files_relative :
  find_audio_files {[ ["snd"] := Dir; ["snd"; "a.bgw"] := File "bgw" ]} ["snd"]
  = [["snd"; "a.bgw"]].
Proof. by vm_compute. Qed.

Example main_converts :
  let r := main env_ok prog ["/snd"] (world fs_tree) in
  r.1 = inr tt ∧
  stdout r.2
  = ["Checking dependencies..."; "  vgmstream-cli: OK (vgmstream-cli)";
     "  ffmpeg: OK"; ""; "Scanning: /snd"; "  Found 1 .bgw files (music)";
     "  Found 1 .spw files (sound effects)"; "  Total: 2 files"; "";
     "Converting..."; rule; "[1/2] a.bgw"; "  [OK] a.ogg"; "[2/2] b.SPW";
     "  [OK] b.ogg"; ""; rule; "Complete!"; "  Converted: 2"; "  Skipped:   0";
     "  Failed:    0"] ∧
  (fst <$> map_to_list (fs r.2))
  ≡ₚ (fst <$> map_to_list fs_tree) ++ [root ++ ["a.ogg"]; root ++ ["b.ogg"]].
Proof.
  split; [by vm_compute|]. split; [by vm_compute|].
  apply (bool_decide_unpack _). by vm_compute.
Qed.

Example main_no_folder_given :
  let r := main env_ok prog ["/nowhere"] (world fs_tree) in
  r.1 = inl (SystemExit 1) ∧ stdout r.2 = ["Error: Folder not found: /nowhere"].
Proof. by vm_compute. Qed.

Example main_nothing_to_convert :
  let r := main env_ok prog ["/snd"] (world {[ root := Dir ]}) in
  r.1 = inl (SystemExit 0) ∧ last (stdout r.2) = Some "No files to convert.".
Proof. by vm_compute. Qed.

(** ** Strings *)

Section string_facts.
Implicit Types s t e : string.

Lemma sapp_cons c s t : String c s +:+ t = String c (s +:+ t).
Proof. reflexivity. Qed.

Lemma sapp_nil_l s : "" +:+ s = s.
Proof. reflexivity. Qed.

Lemma slength_app s t : String.length (s +:+ t) = String.length s + String.length t.
Proof. induction s as [|c s IH]; [done|]. rewrite sapp_cons. simpl. by rewrite IH. Qed.

Lemma stake_drop n s : Str.take n s +:+ Str.drop n s = s.
Proof.
  revert s. induction n as [|n IH]; intros [|c s]; simpl; try done.
  by rewrite sapp_cons, IH.
Qed.

Lemma slength_drop n s : String.length (Str.drop n s) = String.length s - n.
Proof. revert s. induction n as [|n IH]; intros [|c s]; simpl; auto. Qed.

Lemma sdrop_app_length s t : Str.drop (String.length s) (s +:+ t) = t.
Proof. induction s as [|c s IH]; simpl; [by destruct t|done]. Qed.

Lemma endswith_iff s e : Str.endswith s e = true ↔ ∃ a, s = a +:+ e.
Proof.
  unfold Str.endswith. rewrite bool_decide_eq_true. split.
  - intros H. exists (Str.take (String.length s - String.length e) s).
    rewrite <- H at 2. by rewrite stake_drop.
  - intros [a ->]. rewrite slength_app.
    replace (String.length a + String.length e - String.length e)
      with (String.length a) by lia.
    apply sdrop_app_length.
Qed.

Lemma glob_match_literal e s :
  star_free e = true → Str.glob_match e s = true ↔ s = e.
Proof.
  revert s. induction e as [|c e IH]; intros s Hf; simpl in *.
  - destruct s; split; intros; congruence.
  - apply andb_true_iff in Hf as [Hc Hf]. apply negb_true_iff in Hc.
    rewrite Hc. destruct s as [|d s]; [split; intros; congruence|].
    rewrite andb_true_iff, (IH s Hf), Ascii.eqb_eq.
    split; [intros [-> ->]; reflexivity|intros [= -> ->]; done].
Qed.

Lemma glob_match_star e s :
  star_free e = true →
  Str.glob_match (String "*" e) s = true ↔ ∃ a, s = a +:+ e.
Proof.
  intros Hf. simpl. induction s as [|c s IH].
  - rewrite orb_false_r, glob_match_literal by done. split.
    + intros <-. exists "". reflexivity.
    + intros [[|d a] Ha]; [done|]. rewrite sapp_cons in Ha. discriminate.
  - rewrite orb_true_iff, glob_match_literal, IH by done. split.
    + intros [<-|[a ->]]; [exists ""|exists (String c a)]; reflexivity.
    + intros [[|d a] Ha]; [left; exact Ha|].
      rewrite sapp_cons in Ha. injection Ha as -> ->. right. by exists a.
Qed.

Lemma glob_match_ext e s :
  star_free e = true →
  Str.glob_match (String "*" e) s = Str.endswith s e.
Proof.
  intros Hf. apply eq_true_iff_eq. by rewrite glob_match_star, endswith_iff.
Qed.
End string_facts.

Section path_facts.
Implicit Types p q folder rel : Path.
Implicit Types s nm : string.

Lemma rfind_dot_lt nm i : Str.rfind_dot nm = Some i → i < String.length nm.
Proof.
  revert i. induction nm as [|c nm IH]; intros i; simpl; [done|].
  destruct (Str.rfind_dot nm) as [j|].
  - intros [= <-]. specialize (IH j eq_refl). lia.
  - destruct (Ascii.eqb c "."); intros [= <-]. lia.
Qed.

Lemma sdrop_length nm : Str.drop (String.length nm) nm = "".
Proof. induction nm; simpl; auto. Qed.

(** The suffix of a name is what is left of it after the stem. *)
Lemma name_suffix_drop nm :
  Str.drop (String.length nm - String.length (Pth.name_suffix nm)) nm
  = Pth.name_suffix nm.
Proof.
  unfold Pth.name_suffix.
  destruct (Str.rfind_dot nm) as [i|] eqn:Hi; simpl.
  2: { rewrite Nat.sub_0_r. apply sdrop_length. }
  destruct (_ && _); simpl.
  2: { rewrite Nat.sub_0_r. apply sdrop_length. }
  apply rfind_dot_lt in Hi. rewrite slength_drop.
  by replace (String.length nm - (String.length nm - i)) with i by lia.
Qed.

Lemma name_stem_suffix nm :
  nm = Str.take (String.length nm - String.length (Pth.name_suffix nm)) nm
       +:+ Pth.name_suffix nm.
Proof. rewrite <- name_suffix_drop at 2. by rewrite stake_drop. Qed.

Lemma valid_suffix_length s : Pth.valid_suffix s = true → s ≠ "" → 2 ≤ String.length s.
Proof.
  unfold Pth.valid_suffix. intros [_ H]%andb_true_iff Hne.
  destruct s as [|c [|d s]]; simpl in *; try done; [|lia].
  by rewrite andb_false_r in H.
Qed.

Lemma name_snoc l x : x ≠ "/" → Pth.name (l ++ [x]) = x.
Proof.
  intros Hx. unfold Pth.name. rewrite last_snoc. simpl.
  rewrite bool_decide_eq_false_2; [done|].
  destruct l as [|y [|z l]]; simpl; congruence.
Qed.

Lemma name_last p : Pth.name p ≠ "" → ∃ l, p = l ++ [Pth.name p].
Proof.
  intros Hne. destruct (decide (p = [])) as [->|Hp]; [done|].
  destruct (exists_last Hp) as (l & x & ->). exists l.
  unfold Pth.name in *. rewrite last_snoc in *.
  by case_bool_decide.
Qed.

Lemma with_suffix_inv p s q :
  Pth.with_suffix p s = inr q →
  Pth.valid_suffix s = true ∧ Pth.name p ≠ "" ∧
  ∃ l stem, p = l ++ [stem +:+ Pth.suffix p] ∧ q = l ++ [stem +:+ s].
Proof.
  unfold Pth.with_suffix. destruct (Pth.valid_suffix s); simpl; [|done].
  case_bool_decide as Hnm; [done|]. intros [= <-].
  split; [done|]. split; [done|].
  destruct (name_last p Hnm) as [l Hl]. unfold Pth.suffix.
  remember (Pth.name p) as nm eqn:Heq. clear Heq. subst p.
  exists l. eexists. split.
  - f_equal. f_equal. apply name_stem_suffix.
  - by rewrite removelast_last.
Qed.

Lemma with_suffix_total p s :
  Pth.valid_suffix s = true → Pth.name p ≠ "" → ∃ q, Pth.with_suffix p s = inr q.
Proof.
  intros Hs Hnm. unfold Pth.with_suffix. rewrite Hs. simpl.
  rewrite bool_decide_eq_false_2 by done. eauto.
Qed.

Lemma with_suffix_name p s q :
  Pth.with_suffix p s = inr q → s ≠ "" → Str.endswith (Pth.name q) s = true.
Proof.
  intros (Hs & _ & l & stem & _ & ->)%with_suffix_inv Hne.
  rewrite name_snoc; [apply endswith_iff; eauto|].
  intros Heq. apply (f_equal String.length) in Heq.
  rewrite slength_app in Heq. simpl in Heq.
  pose proof (valid_suffix_length s Hs Hne). lia.
Qed.

(** Changing the suffix changes the path, unless it had that suffix. *)
Lemma with_suffix_ne p s q :
  Pth.with_suffix p s = inr q → Pth.suffix p ≠ s → q ≠ p.
Proof.
  intros (_ & _ & l & stem & Hp & ->)%with_suffix_inv Hne Heq.
  assert (l ++ [stem +:+ s] = l ++ [stem +:+ Pth.suffix p]) as Heq'
    by congruence.
  apply app_inv_head in Heq'. injection Heq' as Heq'.
  by apply String.app_inj in Heq'.
Qed.

Lemma endswith_excl nm e1 e2 :
  String.length e1 = String.length e2 → e1 ≠ e2 →
  Str.endswith nm e1 = true → Str.endswith nm e2 = false.
Proof.
  unfold Str.endswith. intros Hlen Hne H1%bool_decide_eq_true.
  apply bool_decide_eq_false. rewrite <- Hlen. congruence.
Qed.

(** The two derived paths never coincide, whatever they derive from. *)
Lemma wav_ne_ogg p p' wav ogg :
  Pth.with_suffix p ".wav" = inr wav → Pth.with_suffix p' ".ogg" = inr ogg →
  wav ≠ ogg.
Proof.
  intros Hw%with_suffix_name Ho%with_suffix_name; [|done..]. intros ->.
  by rewrite (endswith_excl _ ".wav" ".ogg") in Ho.
Qed.

Lemma strip_prefix_Some pre p rel :
  Pth.strip_prefix pre p = Some rel ↔ p = pre ++ rel.
Proof.
  revert p. induction pre as [|x pre IH]; intros p; simpl.
  - split; [intros [= ->]|intros ->]; done.
  - destruct p as [|y p]; [split; [done|intros [=]]|].
    case_bool_decide as Hxy.
    + subst y. rewrite IH. split; [intros ->|intros [= ->]]; done.
    + split; [done|intros [= -> _]; done].
Qed.

Lemma below_iff folder p :
  below folder p = true ↔
  ∃ rel, rel ≠ [] ∧ Pth.is_absolute rel = false ∧ p = folder ++ rel.
Proof.
  unfold below, Pth.relative_to.
  destruct (Pth.strip_prefix folder p) as [rel|] eqn:Hrel.
  - apply strip_prefix_Some in Hrel as ->.
    destruct (Pth.is_absolute rel) eqn:Habs.
    + split; [done|].
      intros (rel' & _ & Habs' & Heq%app_inv_head). congruence.
    + destruct rel as [|r rel].
      * split; [done|]. intros (rel' & Hne & _ & Heq%app_inv_head). congruence.
      * split; [|done]. intros _. by exists (r :: rel).
  - split; [done|]. intros (rel & _ & _ & ->).
    by rewrite (proj2 (strip_prefix_Some _ _ rel)) in Hrel.
Qed.

Lemma below_ne folder p : below folder p = true → p ≠ folder.
Proof.
  intros (rel & Hne & _ & ->)%below_iff Heq.
  apply (f_equal length) in Heq. rewrite length_app in Heq.
  destruct rel; simpl in *; [done|lia].
Qed.

Lemma below_absolute folder p :
  below folder p = true → Pth.is_absolute p = Pth.is_absolute folder.
Proof.
  intros (rel & Hne & Habs & ->)%below_iff.
  by destruct folder as [|x folder].
Qed.

(** A derived path stays in the directory of the path it derives from. *)
Lemma with_suffix_below folder p s q :
  Pth.with_suffix p s = inr q → s ≠ "" →
  below folder p = true → below folder q = true.
Proof.
  intros Hq Hs (rel & Hne & Habs & ->)%below_iff.
  pose proof (with_suffix_name _ _ _ Hq Hs) as Hnm.
  apply with_suffix_inv in Hq as (Hv & _ & l & stem & Hp & ->).
  destruct (exists_last Hne) as (rel' & x & ->).
  rewrite app_assoc in Hp. apply app_inj_tail in Hp as [<- _].
  apply below_iff. exists (rel' ++ [stem +:+ s]).
  split; [by destruct rel'|]. split; [|by rewrite app_assoc].
  destruct rel' as [|y rel']; [|done]. simpl.
  assert (2 ≤ String.length (stem +:+ s)).
  { rewrite slength_app. pose proof (valid_suffix_length s Hv Hs). lia. }
  apply bool_decide_eq_false. intros Heq. rewrite Heq in *. simpl in *. lia.
Qed.
End path_facts.

Section path_order.
Implicit Types p q r : Path.

Lemma compare_refl_not_Lt (x : string) : String.compare x x ≠ Lt.
Proof.
  intros H. pose proof (String.compare_antisym x x) as Ha.
  rewrite H in Ha. discriminate.
Qed.

Lemma leb_cons x p y q :
  Pth.leb (x :: p) (y :: q) = true ↔
  (String.le x y ∧ x ≠ y) ∨ (x = y ∧ Pth.leb p q = true).
Proof.
  simpl. unfold String.le, String.leb.
  destruct (String.compare x y) eqn:Hc; simpl.
  - apply String.compare_eq_iff in Hc as ->.
    split; [by right|]. by intros [[_ []]|[_ ?]].
  - split; [intros _; left|done]. split; [done|]. intros ->.
    by apply compare_refl_not_Lt in Hc.
  - split; [done|]. intros [[[] _]|[-> _]].
    rewrite String.compare_antisym in Hc.
    destruct (String.compare y y) eqn:Hy; try done.
    by apply compare_refl_not_Lt in Hy.
Qed.

Lemma le_cons x p y q :
  Pth.le (x :: p) (y :: q) ↔ (String.le x y ∧ x ≠ y) ∨ (x = y ∧ Pth.le p q).
Proof. unfold Pth.le. by rewrite !Is_true_true, leb_cons. Qed.

#[global] Instance path_le_total : Total Pth.le.
Proof.
  intros p. induction p as [|x p IH]; intros [|y q];
    [by left|by left|by right|].
  rewrite !le_cons.
  destruct (decide (x = y)) as [->|Hne]; [destruct (IH q); auto|].
  destruct (total String.le x y); auto.
Qed.

#[global] Instance path_le_trans : Transitive Pth.le.
Proof.
  intros p. induction p as [|x p IH]; intros [|y q] [|z r]; try done.
  rewrite !le_cons.
  intros [[Hxy Hne]|[-> Hpq]] [[Hyz Hne']|[-> Hqr]]; eauto.
  left. split; [by etrans|]. intros ->. apply Hne. by apply (anti_symm String.le).
Qed.

#[global] Instance path_le_antisym : AntiSymm (=) Pth.le.
Proof.
  intros p. induction p as [|x p IH]; intros [|y q]; try done.
  rewrite !le_cons.
  intros [[Hxy Hne]|[-> Hpq]] [[Hyx Hne']|[? Hqp]]; try done.
  - destruct Hne. by apply (anti_symm String.le).
  - f_equal. by apply IH.
Qed.
End path_order.

Section discovery.
Implicit Types (f : FS) (folder p : Path).

Lemma elem_of_rglob f folder pat p :
  p ∈ rglob f folder pat ↔
  is_Some (f !! p) ∧ below folder p = true ∧ Str.glob_match pat (Pth.name p) = true.
Proof.
  unfold rglob. rewrite list_elem_of_filter, elem_of_elements, elem_of_dom.
  rewrite !Is_true_true. tauto.
Qed.

Lemma NoDup_rglob f folder pat : NoDup (rglob f folder pat).
Proof. apply NoDup_filter, NoDup_elements. Qed.

Lemma sorted_perm (l : list Path) : sorted l ≡ₚ l.
Proof. apply merge_sort_Permutation. Qed.

Lemma elem_of_find_audio_files f folder p :
  p ∈ find_audio_files f folder ↔
  is_Some (f !! p) ∧ below folder p = true ∧ audio_name (Pth.name p).
Proof.
  unfold find_audio_files, patterns. rewrite sorted_perm. simpl.
  rewrite !elem_of_app, !elem_of_rglob, !glob_match_ext by done.
  unfold audio_name. split.
  - intros [[[H|H]|H]|H]; destruct H as (? & ? & ?);
      (split; [done|split; [done|]]); eexists; (split; [|eassumption]);
      set_solver.
  - intros (? & ? & ext & Hext & ?).
    repeat (apply elem_of_cons in Hext as [->|Hext]; [tauto|]).
    by apply elem_of_nil in Hext.
Qed.
End discovery.

Section convert_file_facts.
Context (env : Env) (input_path : Path) (vgmstream_cmd : string).
Context (wav_path ogg_path : Path).
Context (Hwav : Pth.with_suffix input_path ".wav" = inr wav_path).
Context (Hogg : Pth.with_suffix input_path ".ogg" = inr ogg_path).

Lemma convert_file_skip w :
  is_Some (fs w !! ogg_path) →
  convert_file env input_path vgmstream_cmd w
  = (inr true, {| fs := fs w; calls := calls w;
                  out := out w ++ [MSkip (Pth.name ogg_path)] |}).
Proof.
  intros Hex. unfold convert_file. unfold_M. rewrite Hwav, Hogg.
  by rewrite bool_decide_eq_true_2.
Qed.

Lemma convert_file_frame w r w' p :
  convert_file env input_path vgmstream_cmd w = (r, w') →
  p ≠ wav_path →
  leaves env (Decode vgmstream_cmd wav_path input_path) p →
  leaves env (Encode wav_path ogg_path) p →
  fs w' !! p = fs w !! p.
Proof.
  intros Hrun Hp Hdec Henc. unfold convert_file in Hrun. unfold_M.
  rewrite Hwav, Hogg in Hrun. run_cases;
  repeat match goal with
  | H : env ?h ?f ?c = _, L : leaves env ?c _ |- _ =>
      let L' := fresh in
      pose proof (L h f) as L'; rewrite H in L'; simpl in L'; clear H
  end;
  rewrite ?lookup_delete_ne by done; congruence.
Qed.

Lemma convert_file_raises w e w' :
  convert_file env input_path vgmstream_cmd w = (inl e, w') →
  is_Exception e = true.
Proof.
  intros Hrun. unfold convert_file in Hrun. unfold_M.
  rewrite Hwav, Hogg in Hrun. by run_cases.
Qed.


Lemma convert_file_true w w' :
  convert_file env input_path vgmstream_cmd w = (inr true, w') →
  is_Some (fs w' !! ogg_path).
Proof.
  intros Hrun. unfold convert_file in Hrun. unfold_M.
  rewrite Hwav, Hogg in Hrun.
  pose proof (wav_ne_ogg _ _ _ _ Hwav Hogg).
  run_cases; rewrite ?lookup_delete_ne by done;
    repeat match goal with
    | H : _ || _ = false |- _ => apply orb_false_iff in H as [? ?]
    | H : negb _ = false |- _ => apply negb_false_iff in H
    | H : bool_decide _ = true |- _ => apply bool_decide_eq_true in H
    end; done.
Qed.
End convert_file_facts.

(** ** [convert_file], path by path *)

Section convert_file_runs.
Context (env : Env) (input_path : Path) (vgmstream_cmd : string).
Context (wav_path ogg_path : Path).
Context (Hwav : Pth.with_suffix input_path ".wav" = inr wav_path).
Context (Hogg : Pth.with_suffix input_path ".ogg" = inr ogg_path).

Abbreviation decode := (Decode vgmstream_cmd wav_path input_path).
Abbreviation encode := (Encode wav_path ogg_path).

Lemma convert_file_decoder_missing w filename :
  fs w !! ogg_path = None →
  env (calls w) (fs w) decode = NotFound filename →
  convert_file env input_path vgmstream_cmd w
  = (inr false, {| fs := fs w; calls := calls w ++ [decode];
                   out := out w ++ [MCmdNotFound filename] |}).
Proof. intros Hno Hdec. unfold convert_file. by py_run. Qed.

Lemma convert_file_decode_failed w rc err f1 :
  fs w !! ogg_path = None →
  env (calls w) (fs w) decode = Completed rc err f1 →
  rc ≠ 0%Z ∨ f1 !! wav_path = None →
  convert_file env input_path vgmstream_cmd w
  = (inr false, {| fs := f1; calls := calls w ++ [decode];
                   out := out w ++ [MFailDecode (Str.strip err)] |}).
Proof.
  intros Hno Hdec Hfail. unfold convert_file. py_run.
  destruct Hfail as [Hrc|Hnowav].
  - by rewrite (proj2 (Z.eqb_neq rc 0) Hrc).
  - py_run. by rewrite orb_true_r.
Qed.

Lemma convert_file_encoder_missing w err f1 filename :
  fs w !! ogg_path = None →
  env (calls w) (fs w) decode = Completed 0 err f1 →
  is_Some (f1 !! wav_path) →
  env (calls w ++ [decode]) f1 encode = NotFound filename →
  convert_file env input_path vgmstream_cmd w
  = (inr false, {| fs := f1; calls := calls w ++ [decode; encode];
                   out := out w ++ [MCmdNotFound filename] |}).
Proof.
  intros Hno Hdec Hw Henc. unfold convert_file. py_run.
  by rewrite <- app_assoc.
Qed.

Lemma convert_file_encode_reached w err f1 :
  fs w !! ogg_path = None →
  env (calls w) (fs w) decode = Completed 0 err f1 →
  is_Some (f1 !! wav_path) →
  calls (convert_file env input_path vgmstream_cmd w).2
  = calls w ++ [decode; encode].
Proof.
  intros Hno Hdec Hw. unfold convert_file. py_run.
  rewrite <- app_assoc. simpl.
  destruct (env _ f1 encode); simpl; [|done|]; by run_cases.
Qed.

Lemma convert_file_success w err1 f1 err2 f2 content :
  fs w !! ogg_path = None →
  env (calls w) (fs w) decode = Completed 0 err1 f1 →
  is_Some (f1 !! wav_path) →
  env (calls w ++ [decode]) f1 encode = Completed 0 err2 f2 →
  is_Some (f2 !! ogg_path) →
  f2 !! wav_path = Some (File content) →
  convert_file env input_path vgmstream_cmd w
  = (inr true, {| fs := delete wav_path f2; calls := calls w ++ [decode; encode];
                  out := out w ++ [MOk (Pth.name ogg_path)] |}).
Proof.
  intros Hno Hdec Hw Henc Ho Hw2. unfold convert_file. py_run.
  by rewrite <- app_assoc.
Qed.
End convert_file_runs.

(** ** The loop *)

Section loop_facts.
Context (env : Env) (vgmstream_cmd : string) (sound_folder : Path) (n : nat).

Abbreviation step := (process_one env vgmstream_cmd sound_folder n).
Abbreviation loop := (process_files env vgmstream_cmd sound_folder n).

Lemma with_suffix_ogg_wav p ogg_path :
  Pth.with_suffix p ".ogg" = inr ogg_path →
  ∃ wav_path, Pth.with_suffix p ".wav" = inr wav_path.
Proof.
  intros (_ & Hnm & _)%with_suffix_inv. by apply with_suffix_total.
Qed.

Lemma process_one_skip i p t w rel_path ogg_path :
  Pth.relative_to p sound_folder = inr rel_path →
  Pth.with_suffix p ".ogg" = inr ogg_path →
  is_Some (fs w !! ogg_path) →
  step i p t w
  = (inr (add_skipped t),
     {| fs := fs w; calls := calls w;
        out := out w ++ [MProgress i n rel_path; MSkipExists] |}).
Proof.
  intros Hrel Hogg Hex. unfold process_one. unfold_M.
  rewrite Hrel, Hogg. simpl. rewrite bool_decide_eq_true_2 by done.
  simpl. by rewrite <- app_assoc.
Qed.

(** One turn of the loop adds one to exactly one counter; [skipped]
    moves exactly when the output was there at the check of line 166. *)
Lemma process_one_tally i p t w t' w' :
  step i p t w = (inr t', w') →
  ∃ ogg_path, Pth.with_suffix p ".ogg" = inr ogg_path ∧
    if bool_decide (is_Some (fs w !! ogg_path)) then t' = add_skipped t
    else (t' = add_converted t ∧ is_Some (fs w' !! ogg_path)) ∨ t' = add_failed t.
Proof.
  unfold process_one. unfold_M. intros Hrun.
  destruct (Pth.relative_to p sound_folder) as [|rel_path]; [done|].
  destruct (Pth.with_suffix p ".ogg") as [|ogg_path] eqn:Hogg; [done|].
  exists ogg_path. split; [done|]. simpl in Hrun.
  destruct (bool_decide (is_Some (fs w !! ogg_path))); [congruence|].
  destruct (with_suffix_ogg_wav _ _ Hogg) as [wav_path Hwav].
  destruct (convert_file _ _ _ _) as [[e|[]] w1] eqn:Hcf; [done|..];
    injection Hrun as <- <-; [|by right].
  left. split; [done|].
  by eapply convert_file_true.
Qed.

Lemma relative_to_raises p folder e :
  Pth.relative_to p folder = inl e → is_Exception e = true.
Proof. unfold Pth.relative_to. repeat case_match; by intros [= <-]. Qed.

Lemma with_suffix_raises p s e :
  Pth.with_suffix p s = inl e → is_Exception e = true.
Proof. unfold Pth.with_suffix. repeat case_match; by intros [= <-]. Qed.

Lemma process_one_raises i p t w e w' :
  step i p t w = (inl e, w') → is_Exception e = true.
Proof.
  unfold process_one. unfold_M. intros Hrun.
  destruct (Pth.relative_to p sound_folder) as [|rel_path] eqn:Hrel.
  { injection Hrun as <- <-. by eapply relative_to_raises. }
  destruct (Pth.with_suffix p ".ogg") as [|ogg_path] eqn:Hogg.
  { injection Hrun as <- <-. by eapply with_suffix_raises. }
  simpl in Hrun.
  destruct (bool_decide (is_Some (fs w !! ogg_path))); [done|].
  destruct (with_suffix_ogg_wav _ _ Hogg) as [wav_path Hwav].
  destruct (convert_file _ _ _ _) as [[e'|[]] w1] eqn:Hcf; [|done..].
  injection Hrun as <- <-. by eapply convert_file_raises.
Qed.


Lemma process_one_frame i p t w r w' wav_path ogg_path q :
  Pth.with_suffix p ".wav" = inr wav_path →
  Pth.with_suffix p ".ogg" = inr ogg_path →
  step i p t w = (r, w') →
  q ≠ wav_path →
  leaves env (Decode vgmstream_cmd wav_path p) q →
  leaves env (Encode wav_path ogg_path) q →
  fs w' !! q = fs w !! q.
Proof.
  intros Hwav Hogg. unfold process_one. unfold_M. rewrite Hogg. intros Hrun ???.
  destruct (Pth.relative_to p sound_folder) as [|rel_path];
    [by injection Hrun as <- <-|].
  simpl in Hrun.
  destruct (bool_decide (is_Some (fs w !! ogg_path)));
    [by injection Hrun as <- <-|].
  destruct (convert_file _ _ _ _) as [[e'|b] w1] eqn:Hcf;
    pose proof (convert_file_frame _ _ _ _ _ Hwav Hogg _ _ _ q Hcf) as Hfr;
    simpl in Hfr; rewrite <- Hfr by done.
  - by injection Hrun as <- <-.
  - by destruct b; injection Hrun as <- <-.
Qed.

(** When the output of [p] is there, a turn changes no file at all and
    calls nothing. *)
Lemma process_one_done i p t w r w' :
  has_ogg (fs w) p →
  step i p t w = (r, w') → fs w' = fs w ∧ calls w' = calls w.
Proof.
  intros (ogg_path & Hogg & Hex). unfold process_one. unfold_M. rewrite Hogg.
  destruct (Pth.relative_to p sound_folder) as [|rel_path]; [by intros [= <- <-]|].
  simpl. rewrite bool_decide_eq_true_2 by done. by intros [= <- <-].
Qed.
End loop_facts.

Section loop_runs.
Context (env : Env) (vgmstream_cmd : string) (sound_folder : Path) (n : nat).

Abbreviation step := (process_one env vgmstream_cmd sound_folder n).
Abbreviation loop := (process_files env vgmstream_cmd sound_folder n).

Lemma process_files_cons i p files t w :
  loop i (p :: files) t w
  = match step i p t w with
    | (inr t1, w1) => loop (S i) files t1 w1
    | (inl e, w1) => (inl e, w1)
    end.
Proof. reflexivity. Qed.

Lemma process_one_total i p t w t' w' :
  step i p t w = (inr t', w') →
  tally_total t' = S (tally_total t) ∧ failed t ≤ failed t'.
Proof.
  intros (ogg_path & _ & H)%process_one_tally. unfold tally_total.
  destruct (bool_decide _); [|destruct H as [[? _]|?]]; subst; simpl; lia.
Qed.

Lemma process_files_total files i t w t' w' :
  loop i files t w = (inr t', w') →
  tally_total t' = tally_total t + length files ∧ failed t ≤ failed t'.
Proof.
  revert i t w. induction files as [|p files IH]; intros i t w.
  - intros [= <- <-]. simpl. lia.
  - rewrite process_files_cons.
    destruct (step i p t w) as [[e|t1] w1] eqn:Hone; [done|].
    intros [? ?]%IH. apply process_one_total in Hone as [? ?]. simpl. lia.
Qed.

Lemma process_files_raises files i t w e w' :
  loop i files t w = (inl e, w') → is_Exception e = true.
Proof.
  revert i t w. induction files as [|p files IH]; intros i t w; [done|].
  rewrite process_files_cons.
  destruct (step i p t w) as [[e'|t1] w1] eqn:Hone.
  - intros [= <- <-]. by eapply process_one_raises.
  - apply IH.
Qed.


Context (Hc : tool_contract env).

Lemma process_one_frame_derived i p t w r w' q :
  step i p t w = (r, w') →
  (∀ d, derived p d → q ≠ d) →
  fs w' !! q = fs w !! q.
Proof.
  intros Hrun Hq.
  destruct (Pth.with_suffix p ".ogg") as [e|ogg_path] eqn:Hogg.
  { unfold process_one in Hrun. unfold_M. rewrite Hogg in Hrun.
    destruct (Pth.relative_to _ _); by injection Hrun as <- <-. }
  destruct (with_suffix_ogg_wav _ _ Hogg) as [wav_path Hwav].
  eapply process_one_frame; [done..| | |].
  - apply Hq. by left.
  - apply Hc. simpl. rewrite list_elem_of_singleton. apply Hq. by left.
  - apply Hc. simpl. rewrite list_elem_of_singleton. apply Hq. by right.
Qed.

Lemma process_files_frame files i t w r w' q :
  loop i files t w = (r, w') →
  (∀ p d, p ∈ files → derived p d → q ≠ d) →
  fs w' !! q = fs w !! q.
Proof.
  revert i t w. induction files as [|p files IH]; intros i t w.
  - by intros [= <- <-].
  - rewrite process_files_cons. intros Hrun Hq.
    destruct (step i p t w) as [[e|t1] w1] eqn:Hone.
    + injection Hrun as <- <-.
      eapply process_one_frame_derived; [done|]. intros d. apply Hq. by left.
    + etrans; [eapply IH; [done|]|].
      * intros p' d Hp'. apply Hq. by right.
      * eapply process_one_frame_derived; [done|]. intros d. apply Hq. by left.
Qed.

(** An output that is there stays there, whatever is processed. *)
Lemma process_one_keeps_ogg i p t w r w' q :
  step i p t w = (r, w') →
  is_Some (fs w !! q) → Str.endswith (Pth.name q) ".ogg" = true →
  fs w' !! q = fs w !! q.
Proof.
  intros Hrun Hex Hq.
  destruct (Pth.with_suffix p ".ogg") as [e|ogg_path] eqn:Hogg.
  { eapply process_one_frame_derived; [done|].
    intros d [Hd|Hd] ->; [|congruence].
    apply with_suffix_name in Hd; [|done].
    by rewrite (endswith_excl _ ".wav" ".ogg") in Hq. }
  destruct (decide (is_Some (fs w !! ogg_path))) as [Hdone|Hnot].
  { eapply process_one_done in Hrun as [-> _]; [done|]. by exists ogg_path. }
  eapply process_one_frame_derived; [done|].
  intros d [Hd|Hd] ->; [|congruence].
  apply with_suffix_name in Hd; [|done].
  by rewrite (endswith_excl _ ".wav" ".ogg") in Hq.
Qed.

Lemma process_files_keeps_ogg files i t w r w' q :
  loop i files t w = (r, w') →
  is_Some (fs w !! q) → Str.endswith (Pth.name q) ".ogg" = true →
  fs w' !! q = fs w !! q.
Proof.
  revert i t w. induction files as [|p files IH]; intros i t w.
  - by intros [= <- <-].
  - rewrite process_files_cons. intros Hrun Hex Hq.
    destruct (step i p t w) as [[e|t1] w1] eqn:Hone.
    + injection Hrun as <- <-. by eapply process_one_keeps_ogg.
    + pose proof (process_one_keeps_ogg _ _ _ _ _ _ _ Hone Hex Hq) as H1.
      rewrite <- H1. eapply IH; [done| |done]. by rewrite H1.
Qed.

(** After a loop in which nothing failed, every output is there. *)
Lemma process_files_all_done files i t w t' w' :
  loop i files t w = (inr t', w') →
  failed t' = failed t →
  ∀ p, p ∈ files → has_ogg (fs w') p.
Proof.
  revert i t w. induction files as [|p files IH]; intros i t w.
  - intros _ _ p Hp. by apply elem_of_nil in Hp.
  - rewrite process_files_cons.
    destruct (step i p t w) as [[e|t1] w1] eqn:Hone; [done|].
    intros Hrun Hfail p' Hp'.
    pose proof (process_files_total _ _ _ _ _ _ Hrun) as [_ Hle1].
    pose proof (process_one_total _ _ _ _ _ _ Hone) as [_ Hle2].
    apply elem_of_cons in Hp' as [->|Hp']; [|eapply IH; [done|lia|done]].
    pose proof Hone as (ogg_path & Hogg & Ht)%process_one_tally.
    exists ogg_path. split; [done|].
    assert (is_Some (fs w1 !! ogg_path)) as Hex.
    { case_bool_decide as Hdone.
      - eapply process_one_done in Hone as [-> _]; [done|]. by exists ogg_path.
      - destruct Ht as [[_ ?]| ->]; [done|]. simpl in *. lia. }
    erewrite process_files_keeps_ogg; [done..|].
    by eapply with_suffix_name.
Qed.

(** When every output is there, the loop only counts. *)
Lemma process_files_all_skipped files i t w :
  (∀ p, p ∈ files → below sound_folder p = true ∧ has_ogg (fs w) p) →
  ∃ w', loop i files t w = (inr (skip_all (length files) t), w') ∧
        fs w' = fs w ∧ calls w' = calls w.
Proof.
  revert i t w. induction files as [|p files IH]; intros i t w Hall.
  - exists w. split; [|done]. unfold skip_all. destruct t; simpl.
    by rewrite Nat.add_0_r.
  - destruct (Hall p) as [Hbelow (ogg_path & Hogg & Hex)]; [by left|].
    unfold below in Hbelow.
    destruct (Pth.relative_to p sound_folder) as [|rel_path] eqn:Hrel; [done|].
    rewrite process_files_cons.
    erewrite process_one_skip by done.
    destruct (IH (S i) (add_skipped t)
                {| fs := fs w; calls := calls w;
                   out := out w ++ [MProgress i n rel_path; MSkipExists] |})
      as (w' & -> & ? & ?).
    { intros p' Hp'. apply Hall. by right. }
    exists w'. split; [|done]. f_equal. f_equal.
    unfold skip_all, add_skipped. simpl. f_equal. lia.
Qed.
End loop_runs.

#[local] Arguments process_files : simpl never.

Section main_facts.
Context (env : Env) (argv0 arg1 : string) (rest : list string).

Abbreviation sound_folder := (Pth.of_string arg1).
Abbreviation vgmstream_cmd := (vgmstream_arg rest).

Lemma main_no_args w :
  (main env argv0 [] w).1 = inl (SystemExit 1).
Proof. reflexivity. Qed.

Lemma main_no_folder w :
  fs w !! sound_folder = None →
  (main env argv0 (arg1 :: rest) w).1 = inl (SystemExit 1).
Proof. intros Hdir. by main_run. Qed.

Lemma main_not_dir w :
  fs w !! sound_folder ≠ Some Dir →
  (main env argv0 (arg1 :: rest) w).1 = inl (SystemExit 1).
Proof.
  intros Hdir. destruct (fs w !! sound_folder) as [[| |]|] eqn:Hfolder;
    [|done| |]; by main_run.
Qed.





(** [main] once the folder and both tools have been checked. *)
Lemma main_probed w rc1 err1 f1 rc2 err2 f2 :
  fs w !! sound_folder = Some Dir →
  env (calls w) (fs w) (ProbeDecoder vgmstream_cmd) = Completed rc1 err1 f1 →
  env (calls w ++ [ProbeDecoder vgmstream_cmd]) f1 ProbeEncoder
  = Completed rc2 err2 f2 →
  let audio_files := find_audio_files f2 sound_folder in
  let w2 := {| fs := f2;
               calls := calls w ++ [ProbeDecoder vgmstream_cmd; ProbeEncoder];
               out := out w ++ [MChecking; MDecoderOk vgmstream_cmd; MEncoderOk;
                                MBlank; MScanning sound_folder;
                                MFound (length (filter is_bgw audio_files))
                                       (length (filter is_spw audio_files))
                                       (length audio_files)] |} in
  main env argv0 (arg1 :: rest) w
  = match audio_files with
    | [] => (inl (SystemExit 0),
             {| fs := f2; calls := calls w2; out := out w2 ++ [MNothing] |})
    | _ :: _ =>
        match process_files env vgmstream_cmd sound_folder (length audio_files)
                1 audio_files (mkTally 0 0 0)
                {| fs := f2; calls := calls w2; out := out w2 ++ [MConverting] |}
        with
        | (inr t, w3) =>
            (inr tt, {| fs := fs w3; calls := calls w3;
                        out := out w3 ++ [MSummary (converted t) (skipped t) (failed t)] |})
        | (inl e, w3) => (inl e, w3)
        end
    end.
Proof.
  intros Hdir Hp1 Hp2. main_run.
  rewrite <- !app_assoc. simpl.
  destruct (find_audio_files f2 sound_folder) as [|p files] eqn:Hfiles;
    simpl; rewrite <- ?app_assoc; [done|].
  by destruct (process_files _ _ _ _ _ _ _ _) as [[e|t] w3].
Qed.
End main_facts.




(** ** Two runs in a row *)

Section second_run.
Context (env : Env) (Hc : tool_contract env) (Hp : probes_launch env).

Lemma probe_completed h f c :
  writes c = [] → ∃ rc err, env h f c = Completed rc err f.
Proof.
  intros Hw. destruct (Hp h f c Hw) as (rc & err & f' & Hrun).
  exists rc, err. rewrite Hrun. f_equal. apply map_eq. intros p.
  assert (p ∉ writes c) as Hnot by (rewrite Hw; apply not_elem_of_nil).
  pose proof (Hc c p Hnot h f) as Hl. by rewrite Hrun in Hl.
Qed.

Lemma derived_name p d :
  derived p d →
  Str.endswith (Pth.name d) ".wav" = true ∨ Str.endswith (Pth.name d) ".ogg" = true.
Proof. intros [H|H]; apply with_suffix_name in H; auto. Qed.

Lemma endswith_same nm e1 e2 :
  Str.endswith nm e1 = true → Str.endswith nm e2 = true →
  String.length e1 = String.length e2 → e1 = e2.
Proof.
  unfold Str.endswith. intros H1%bool_decide_eq_true H2%bool_decide_eq_true Hlen.
  rewrite Hlen in H1. congruence.
Qed.

Lemma audio_name_not_derived p d q :
  audio_name (Pth.name q) → derived p d → q ≠ d.
Proof.
  intros (ext & Hext & Hq) Hd%derived_name ->.
  repeat (apply elem_of_cons in Hext as [->|Hext]);
    [..|by apply elem_of_nil in Hext];
    destruct Hd as [Hd|Hd];
    by pose proof (endswith_same _ _ _ Hd Hq eq_refl).
Qed.

Lemma derived_below folder p d :
  below folder p = true → derived p d → d ≠ folder.
Proof.
  intros Hb [Hd|Hd]; eapply below_ne, with_suffix_below; done.
Qed.

(** What a completed run of [main] leaves behind. *)
Lemma main_completed argv0 arg1 rest w0 w1 :
  main env argv0 (arg1 :: rest) w0 = (inr tt, w1) →
  let sound_folder := Pth.of_string arg1 in
  let audio_files := find_audio_files (fs w0) sound_folder in
  fs w0 !! sound_folder = Some Dir ∧
  audio_files ≠ [] ∧
  ∃ t w3,
    process_files env (vgmstream_arg rest) sound_folder (length audio_files) 1
      audio_files (mkTally 0 0 0)
      {| fs := fs w0;
         calls := calls w0 ++ [ProbeDecoder (vgmstream_arg rest); ProbeEncoder];
         out := out w0 ++ [MChecking; MDecoderOk (vgmstream_arg rest); MEncoderOk;
                           MBlank; MScanning sound_folder;
                           MFound (length (filter is_bgw audio_files))
                                  (length (filter is_spw audio_files))
                                  (length audio_files); MConverting] |}
    = (inr t, w3) ∧
    w1 = {| fs := fs w3; calls := calls w3;
            out := out w3 ++ [MSummary (converted t) (skipped t) (failed t)] |}.
Proof.
  intros Hrun sound_folder audio_files.
  destruct (decide (fs w0 !! sound_folder = Some Dir)) as [Hdir|Hdir].
  - destruct (probe_completed (calls w0) (fs w0)
                (ProbeDecoder (vgmstream_arg rest)) eq_refl) as (rc1 & err1 & Hp1).
    destruct (probe_completed (calls w0 ++ [ProbeDecoder (vgmstream_arg rest)])
                (fs w0) ProbeEncoder eq_refl) as (rc2 & err2 & Hp2).
    rewrite (main_probed env argv0 arg1 rest _ _ _ _ _ _ _ Hdir Hp1 Hp2) in Hrun.
    simpl in Hrun. fold sound_folder audio_files in Hrun.
    split; [done|].
    destruct audio_files as [|p files] eqn:Hfiles; [done|]. split; [done|].
    rewrite <- app_assoc in Hrun. simpl in Hrun.
    destruct (process_files _ _ _ _ _ _ _ _) as [[e|t] w3]; [done|].
    exists t, w3. split; [done|]. by injection Hrun as <-.
  - pose proof (main_not_dir env argv0 arg1 rest w0 Hdir) as H.
    by rewrite Hrun in H.
Qed.

(** C6, as the code has it.  After a run of [main] that ended with no
    failure, and with tools that write only where they are told to and
    can still be launched, a second run over the same folder launches
    the two dependency probes and nothing else, leaves the file system
    as it is, and ends with every discovered file counted as skipped. *)
Theorem second_run_all_skipped argv0 arg1 rest w0 w1 c s :
  main env argv0 (arg1 :: rest) w0 = (inr tt, w1) →
  last (out w1) = Some (MSummary c s 0) →
  ∃ w2 n,
    main env argv0 (arg1 :: rest) w1 = (inr tt, w2) ∧
    calls w2 = calls w1 ++ [ProbeDecoder (vgmstream_arg rest); ProbeEncoder] ∧
    fs w2 = fs w1 ∧
    n = length (find_audio_files (fs w1) (Pth.of_string arg1)) ∧ 0 < n ∧
    last (out w2) = Some (MSummary 0 n 0).
Proof.
  intros Hrun Hlast.
  apply main_completed in Hrun as (Hdir & Hne & t & w3 & Hloop & Hw1).
  assert (fs w1 = fs w3) as Hfs1 by by subst w1.
  rewrite Hw1 in Hlast. simpl in Hlast. rewrite last_snoc in Hlast.
  injection Hlast as _ _ Hfailed. clear Hw1.
  set (sound_folder := Pth.of_string arg1) in *.
  set (files1 := find_audio_files (fs w0) sound_folder) in *.
  assert (∀ q, audio_name (Pth.name q) → fs w1 !! q = fs w0 !! q) as Haudio.
  { intros q Hq. rewrite Hfs1.
    eapply (process_files_frame _ _ _ _ Hc _ _ _ _ _ _ _ Hloop).
    intros p d _ Hd. by eapply audio_name_not_derived. }
  assert (∀ p, p ∈ find_audio_files (fs w1) sound_folder ↔ p ∈ files1) as Hsame.
  { intros p. unfold files1. rewrite !elem_of_find_audio_files.
    split; intros (Hex & Hb & Hnm); (split; [|done]).
    - by rewrite <- Haudio.
    - by rewrite Haudio. }
  assert (fs w1 !! sound_folder = Some Dir) as Hdir'.
  { rewrite <- Hdir, Hfs1.
    eapply (process_files_frame _ _ _ _ Hc _ _ _ _ _ _ _ Hloop).
    intros p d (_ & Hb & _)%elem_of_find_audio_files Hd.
    by apply not_eq_sym, (derived_below _ p). }
  assert (find_audio_files (fs w1) sound_folder ≠ []) as Hne2.
  { intros Hnil. destruct files1 as [|p files1'] eqn:?; [done|].
    destruct (Hsame p) as [_ H]. rewrite Hnil in H.
    specialize (H ltac:(by left)). by apply elem_of_nil in H. }
  destruct (probe_completed (calls w1) (fs w1)
              (ProbeDecoder (vgmstream_arg rest)) eq_refl) as (rc1 & err1 & Hp1).
  destruct (probe_completed (calls w1 ++ [ProbeDecoder (vgmstream_arg rest)])
              (fs w1) ProbeEncoder eq_refl) as (rc2 & err2 & Hp2).
  rewrite (main_probed env argv0 arg1 rest _ _ _ _ _ _ _ Hdir' Hp1 Hp2). simpl.
  fold sound_folder.
  destruct (find_audio_files (fs w1) sound_folder) as [|p files] eqn:Hfiles;
    [done|].
  rewrite <- Hfiles in *. clear p files Hfiles.
  set (files2 := find_audio_files (fs w1) sound_folder) in *.
  edestruct (process_files_all_skipped env (vgmstream_arg rest) sound_folder
               (length files2) files2 1 (mkTally 0 0 0)) as (w4 & Hskip & Hfs & Hcalls);
    [|rewrite <- app_assoc; simpl; rewrite Hskip].
  { intros p Hp2'. simpl. split.
    - by apply elem_of_find_audio_files in Hp2' as (_ & ? & _).
    - apply Hsame in Hp2'. rewrite Hfs1.
      by eapply (process_files_all_done _ _ _ _ Hc _ _ _ _ _ _ Hloop). }
  eexists _, (length files2). split; [reflexivity|]. simpl in *.
  rewrite Hfs, Hcalls, last_snoc. repeat split; try done.
  destruct files2; simpl; [done|lia].
Qed.
End second_run.

(** ** Scenario facts *)

Lemma env_ok_contract : tool_contract env_ok.
Proof.
  intros c p Hp h f. destruct c; simpl in *; [..|done|done];
    apply lookup_insert_ne; intros ->; apply Hp; by left.
Qed.

Lemma env_ok_probes : probes_launch env_ok.
Proof. intros h f c Hw. destruct c; try done; by eexists _, _, _. Qed.

(** ** The claims *)

(** C1.  When the encoder cannot be launched after the decoder has
    written the intermediate file, [convert_file] reports "command not
    found" and returns [False], but the [.wav] is still on disk: the
    [except FileNotFoundError] clause does not clean up. *)
Theorem convert_file_encoder_missing_keeps_wav :
  let r := convert_file env_no_ffmpeg (root ++ ["a.bgw"]) "vgmstream-cli"
             (world fs_tree) in
  r.1 = inr false ∧
  out r.2 = [MCmdNotFound "ffmpeg"] ∧
  calls r.2 = [Decode "vgmstream-cli" (root ++ ["a.wav"]) (root ++ ["a.bgw"]);
               Encode (root ++ ["a.wav"]) (root ++ ["a.ogg"])] ∧
  fs r.2 !! (root ++ ["a.wav"]) = Some (File "RIFF").
Proof. vm_compute. auto. Qed.

(** C2, as the code has it.  [find_audio_files] returns, sorted by
    parts and without repetition, exactly the entries strictly below
    the folder whose name ends, case sensitively, in [.bgw], [.spw],
    [.BGW] or [.SPW]; each is the folder followed by a relative path,
    so it is absolute exactly when the folder is; on the tree [a.bgw],
    [b.SPW], [c.txt] the result is [a.bgw], [b.SPW]. *)
Theorem find_audio_files_spec (f : FS) (folder : Path) :
  let files := find_audio_files f folder in
  StronglySorted Pth.le files ∧
  NoDup files ∧
  (∀ p, p ∈ files ↔
        is_Some (f !! p) ∧ below folder p = true ∧ audio_name (Pth.name p)) ∧
  (∀ p, p ∈ files → Pth.is_absolute p = Pth.is_absolute folder) ∧
  find_audio_files fs_tree root = [root ++ ["a.bgw"]; root ++ ["b.SPW"]].
Proof.
  intros files. split; [|split; [|split; [|split]]].
  - apply StronglySorted_merge_sort; apply _.
  - unfold files, find_audio_files, patterns. rewrite sorted_perm. simpl.
    assert (∀ e1 e2 p, e1 ≠ e2 → String.length e1 = String.length e2 →
              star_free e1 = true → star_free e2 = true →
              p ∈ rglob f folder (String "*" e1) →
              p ∉ rglob f folder (String "*" e2)) as Hdisj.
    { intros e1 e2 p Hne Hlen H1 H2 (_ & _ & Hm1)%elem_of_rglob
        (_ & _ & Hm2)%elem_of_rglob.
      rewrite glob_match_ext in Hm1, Hm2 by done.
      by pose proof (endswith_same _ _ _ Hm1 Hm2 Hlen). }
    repeat (apply NoDup_app; split; [|split]);
      try apply NoDup_rglob; try apply NoDup_nil_2.
    all: intros p Hp; repeat (apply elem_of_app in Hp as [Hp|Hp]);
      try (by apply elem_of_nil in Hp); by refine (Hdisj _ _ p _ _ _ _ Hp).
  - apply elem_of_find_audio_files.
  - intros p (_ & Hb & _)%elem_of_find_audio_files. by apply below_absolute.
  - by vm_compute.
Qed.

(** C2, as stated, fails on a mixed-case extension: [x.Bgw] is a file
    below the folder whose extension is [.bgw] up to case (the test of
    line 141), and discovery does not return it. *)
Lemma find_audio_files_misses_mixed_case :
  fs_mixed !! (root ++ ["x.Bgw"]) = Some (File "bgw") ∧
  below root (root ++ ["x.Bgw"]) = true ∧
  is_bgw (root ++ ["x.Bgw"]) ∧
  find_audio_files fs_mixed root = [].
Proof. by vm_compute. Qed.

(** C3.  When [convert_file] returns after printing [OK] or the
    encode failure, the intermediate [.wav] is not on disk. *)
Theorem convert_file_removes_wav env input_path vgmstream_cmd wav_path w b w' :
  Pth.with_suffix input_path ".wav" = inr wav_path →
  convert_file env input_path vgmstream_cmd w = (inr b, w') →
  (∃ nm, out w' = out w ++ [MOk nm]) ∨
  (∃ err, out w' = out w ++ [MFailEncode err]) →
  fs w' !! wav_path = None.
Proof.
  intros Hwav Hrun Hout. unfold convert_file in Hrun. unfold_M.
  rewrite Hwav in Hrun.
  destruct (Pth.with_suffix input_path ".ogg") as [e|ogg_path]; [done|].
  run_cases;
    try (destruct Hout as [[? Hout]|[? Hout]];
         rewrite <- ?app_assoc in Hout; apply app_inv_head in Hout;
         by simplify_eq).
  all: try apply lookup_delete_eq.
  all: apply eq_None_not_Some; by apply (proj1 (bool_decide_eq_false _)).
Qed.

Lemma convert_file_removes_wav_witness :
  fs (convert_file env_ok (root ++ ["a.bgw"]) "vgmstream-cli" (world fs_tree)).2
    !! (root ++ ["a.wav"]) = None.
Proof.
  apply (convert_file_removes_wav env_ok (root ++ ["a.bgw"]) "vgmstream-cli"
           (root ++ ["a.wav"]) (world fs_tree) true).
  - reflexivity.
  - by vm_compute.
  - left. exists "a.ogg". by vm_compute.
Defined.

(** C4.  A file whose [.ogg] is there when the loop reaches it is
    counted as skipped, and nothing is launched for it: the calls and
    the file system are those of before. *)
Theorem existing_output_is_skipped env vgmstream_cmd sound_folder n i
    input_path t w :
  below sound_folder input_path = true →
  has_ogg (fs w) input_path →
  ∃ w', process_one env vgmstream_cmd sound_folder n i input_path t w
        = (inr (add_skipped t), w') ∧
        calls w' = calls w ∧ fs w' = fs w ∧
        last (out w') = Some MSkipExists.
Proof.
  intros Hb (ogg_path & Hogg & Hex). unfold below in Hb.
  destruct (Pth.relative_to input_path sound_folder) as [|rel_path] eqn:Hrel;
    [done|].
  eexists. split; [by eapply process_one_skip|]. simpl.
  split; [done|]. split; [done|].
  replace (out w ++ [MProgress i n rel_path; MSkipExists])
    with ((out w ++ [MProgress i n rel_path]) ++ [MSkipExists])
    by by rewrite <- app_assoc.
  apply last_snoc.
Qed.

Lemma existing_output_is_skipped_witness :
  ∃ w', process_one env_ok "vgmstream-cli" root 1 1 (root ++ ["a.bgw"])
          (mkTally 0 0 0) (world fs_done)
        = (inr (mkTally 0 1 0), w') ∧
        calls w' = [] ∧ fs w' = fs_done ∧ last (out w') = Some MSkipExists.
Proof.
  apply (existing_output_is_skipped env_ok "vgmstream-cli" root 1 1
           (root ++ ["a.bgw"]) (mkTally 0 0 0) (world fs_done)).
  - reflexivity.
  - exists (root ++ ["a.ogg"]). split; [reflexivity|]. vm_compute. by eexists.
Defined.

(** C5, as the code has it.  Once the decoder has run, the pipeline
    goes on to the encoder exactly when the decoder's status is zero
    and a file is at the [.wav] path, whoever wrote it; otherwise
    [convert_file] stops with the decode failure and returns [False].
    A decoder that exits with zero and leaves nothing at the [.wav]
    path is such a failure. *)
Theorem decode_needs_status_and_file env input_path vgmstream_cmd
    wav_path ogg_path w rc err f1 :
  Pth.with_suffix input_path ".wav" = inr wav_path →
  Pth.with_suffix input_path ".ogg" = inr ogg_path →
  fs w !! ogg_path = None →
  env (calls w) (fs w) (Decode vgmstream_cmd wav_path input_path)
  = Completed rc err f1 →
  let r := convert_file env input_path vgmstream_cmd w in
  if bool_decide (rc = 0%Z ∧ is_Some (f1 !! wav_path))
  then calls r.2 = calls w ++ [Decode vgmstream_cmd wav_path input_path;
                               Encode wav_path ogg_path]
  else r = (inr false,
            {| fs := f1;
               calls := calls w ++ [Decode vgmstream_cmd wav_path input_path];
               out := out w ++ [MFailDecode (Str.strip err)] |}).
Proof.
  intros Hwav Hogg Hno Hdec r. subst r. case_bool_decide as Hok.
  - destruct Hok as [-> Hw]. by eapply convert_file_encode_reached.
  - eapply convert_file_decode_failed; [done..|].
    destruct (decide (rc = 0%Z)) as [->|]; [right|by left].
    apply eq_None_not_Some. intros Hw. by apply Hok.
Qed.

Lemma decode_needs_status_and_file_witness :
  convert_file env_silent_decoder (root ++ ["a.bgw"]) "vgmstream-cli" (world fs_tree)
  = (inr false,
     {| fs := fs_tree;
        calls := [Decode "vgmstream-cli" (root ++ ["a.wav"]) (root ++ ["a.bgw"])];
        out := [MFailDecode ""] |}).
Proof.
  apply (decode_needs_status_and_file env_silent_decoder (root ++ ["a.bgw"])
           "vgmstream-cli" (root ++ ["a.wav"]) (root ++ ["a.ogg"]) (world fs_tree)
           0 "" fs_tree).
  - reflexivity.
  - reflexivity.
  - by vm_compute.
  - reflexivity.
Defined.

(** C5, as stated, fails: the decoder exits with zero and writes
    nothing, and the conversion is a success all the same, because the
    [.wav] of an earlier run is at the intermediate path; line 45 asks
    whether a file is there, not whether the decoder produced it. *)
Lemma idle_decoder_stale_wav_is_ok :
  let w := world fs_stale_wav in
  let decode := Decode "vgmstream-cli" (root ++ ["a.wav"]) (root ++ ["a.bgw"]) in
  let r := convert_file env_idle_decoder (root ++ ["a.bgw"]) "vgmstream-cli" w in
  env_idle_decoder (calls w) (fs w) decode = Completed 0 "" (fs w) ∧
  r.1 = inr true ∧
  calls r.2 = [decode; Encode (root ++ ["a.wav"]) (root ++ ["a.ogg"])] ∧
  out r.2 = [MOk "a.ogg"].
Proof. by vm_compute. Qed.

(** C8.  Called on a file whose [.ogg] is there, [convert_file]
    returns [True] after printing the skip, with no call and no change
    of the file system; a conversion that succeeds returns [True] as
    well; and in the loop the [skipped] counter moves exactly when the
    check of line 166 finds the [.ogg], never through the value
    [convert_file] returns. *)
Theorem convert_file_skip_returns_true env input_path vgmstream_cmd
    wav_path ogg_path w :
  Pth.with_suffix input_path ".wav" = inr wav_path →
  Pth.with_suffix input_path ".ogg" = inr ogg_path →
  is_Some (fs w !! ogg_path) →
  convert_file env input_path vgmstream_cmd w
  = (inr true, {| fs := fs w; calls := calls w;
                  out := out w ++ [MSkip (Pth.name ogg_path)] |}) ∧
  (∀ w0 err1 f1 err2 f2 content,
     fs w0 !! ogg_path = None →
     env (calls w0) (fs w0) (Decode vgmstream_cmd wav_path input_path)
     = Completed 0 err1 f1 →
     is_Some (f1 !! wav_path) →
     env (calls w0 ++ [Decode vgmstream_cmd wav_path input_path]) f1
       (Encode wav_path ogg_path) = Completed 0 err2 f2 →
     is_Some (f2 !! ogg_path) →
     f2 !! wav_path = Some (File content) →
     (convert_file env input_path vgmstream_cmd w0).1 = inr true) ∧
  (∀ sound_folder n i t w0 t' w0',
     process_one env vgmstream_cmd sound_folder n i input_path t w0 = (inr t', w0') →
     skipped t' = skipped t + 1 ↔ is_Some (fs w0 !! ogg_path)).
Proof.
  intros Hwav Hogg Hex. split; [|split].
  - by eapply convert_file_skip.
  - intros w0 err1 f1 err2 f2 content Hno Hdec Hw Henc Ho Hw2.
    by erewrite convert_file_success.
  - intros sound_folder n i t w0 t' w0' (ogg' & Hogg' & Ht)%process_one_tally.
    assert (ogg' = ogg_path) as -> by congruence.
    case_bool_decide as Hdone.
    + subst t'. simpl. tauto.
    + split; [|done]. destruct Ht as [[-> _]| ->]; simpl; lia.
Qed.

Lemma convert_file_skip_returns_true_witness :
  convert_file env_ok (root ++ ["a.bgw"]) "vgmstream-cli" (world fs_done)
  = (inr true, {| fs := fs_done; calls := []; out := [MSkip "a.ogg"] |}).
Proof.
  apply (convert_file_skip_returns_true env_ok (root ++ ["a.bgw"]) "vgmstream-cli"
           (root ++ ["a.wav"]) (root ++ ["a.ogg"]) (world fs_done)).
  - reflexivity.
  - reflexivity.
  - vm_compute. by eexists.
Defined.

(** C9.  When the loop runs to its end, the three counters add up to
    the number of files it was given: each file is counted once. *)
Theorem tally_counts_every_file env vgmstream_cmd sound_folder audio_files w t w' :
  process_files env vgmstream_cmd sound_folder (length audio_files) 1
    audio_files (mkTally 0 0 0) w = (inr t, w') →
  converted t + skipped t + failed t = length audio_files.
Proof. by intros [Htotal _]%process_files_total. Qed.

Lemma tally_counts_every_file_witness :
  let t := {| converted := 2; skipped := 0; failed := 0 |} in
  converted t + skipped t + failed t = length (find_audio_files fs_tree root).
Proof.
  apply (tally_counts_every_file env_ok "vgmstream-cli" root
           (find_audio_files fs_tree root) (world fs_tree)
           {| converted := 2; skipped := 0; failed := 0 |}
           (process_files env_ok "vgmstream-cli" root 2 1
              (find_audio_files fs_tree root) (mkTally 0 0 0) (world fs_tree)).2).
  by vm_compute.
Defined.

Lemma input_file_derived input_path :
  input_file input_path →
  ∃ wav_path ogg_path,
    Pth.with_suffix input_path ".wav" = inr wav_path ∧
    Pth.with_suffix input_path ".ogg" = inr ogg_path ∧
    wav_path ≠ input_path ∧ ogg_path ≠ input_path.
Proof.
  intros Hin.
  assert (Pth.name input_path ≠ "") as Hnm.
  { intros Heq. unfold input_file, is_bgw, is_spw, Pth.suffix in Hin.
    rewrite Heq in Hin. destruct Hin as [?|[?|(ext & Hext & Hends)]]; [done..|].
    repeat (apply elem_of_cons in Hext as [->|Hext]); [done..|].
    by apply elem_of_nil in Hext. }
  destruct (with_suffix_total input_path ".wav" eq_refl Hnm) as [wav_path Hwav].
  destruct (with_suffix_total input_path ".ogg" eq_refl Hnm) as [ogg_path Hogg].
  exists wav_path, ogg_path. split; [done|]. split; [done|].
  destruct Hin as [Hb|[Hs|Ha]].
  - split; (eapply with_suffix_ne; [done|]); intros Heq;
      unfold is_bgw in Hb; by rewrite Heq in Hb.
  - split; (eapply with_suffix_ne; [done|]); intros Heq;
      unfold is_spw in Hs; by rewrite Heq in Hs.
  - split; apply not_eq_sym; eapply audio_name_not_derived; try done;
      [by left|by right].
Qed.

(** C10.  Whatever way [convert_file] ends, returning or raising, with
    tools that write only where they are told to, the file system is
    as before everywhere but at the derived [.wav] and [.ogg] paths;
    these differ from the input, which is therefore neither removed
    nor modified. *)
Theorem convert_file_touches_only_derived env input_path vgmstream_cmd w r w' :
  tool_contract env →
  input_file input_path →
  convert_file env input_path vgmstream_cmd w = (r, w') →
  ∃ wav_path ogg_path,
    Pth.with_suffix input_path ".wav" = inr wav_path ∧
    Pth.with_suffix input_path ".ogg" = inr ogg_path ∧
    fs w' !! input_path = fs w !! input_path ∧
    ∀ p, p ≠ wav_path → p ≠ ogg_path → fs w' !! p = fs w !! p.
Proof.
  intros Hc (wav_path & ogg_path & Hwav & Hogg & Hnw & Hno)%input_file_derived Hrun.
  exists wav_path, ogg_path. split; [done|]. split; [done|].
  assert (∀ p, p ≠ wav_path → p ≠ ogg_path → fs w' !! p = fs w !! p) as Hframe.
  { intros p Hp1 Hp2. eapply convert_file_frame; [done..| |];
      apply Hc; simpl; by rewrite list_elem_of_singleton. }
  split; [|done]. by apply Hframe.
Qed.

Lemma convert_file_touches_only_derived_witness :
  fs (convert_file env_ok (root ++ ["a.bgw"]) "vgmstream-cli" (world fs_tree)).2
    !! (root ++ ["a.bgw"]) = Some (File "bgw").
Proof.
  destruct (convert_file_touches_only_derived env_ok (root ++ ["a.bgw"])
              "vgmstream-cli" (world fs_tree) _ _ env_ok_contract
              ltac:(by left) eq_refl) as (wav_path & ogg_path & _ & _ & Hin & _).
  exact Hin.
Defined.

Lemma second_run_all_skipped_witness :
  let w1 := (main env_ok prog ["/snd"] (world fs_tree)).2 in
  ∃ w2 n,
    main env_ok prog ["/snd"] w1 = (inr tt, w2) ∧
    calls w2 = calls w1 ++ [ProbeDecoder "vgmstream-cli"; ProbeEncoder] ∧
    fs w2 = fs w1 ∧
    n = length (find_audio_files (fs w1) root) ∧ 0 < n ∧
    last (out w2) = Some (MSummary 0 n 0).
Proof.
  intros w1.
  apply (second_run_all_skipped env_ok env_ok_contract env_ok_probes
           prog "/snd" [] (world fs_tree) w1 2 0).
  - by vm_compute.
  - by vm_compute.
Defined.

(** C6, as stated, fails: the second run does launch processes, the
    two dependency probes of lines 116 and 127. *)
Lemma second_run_launches_probes :
  let w1 := (main env_ok prog ["/snd"] (world fs_tree)).2 in
  let w2 := (main env_ok prog ["/snd"] w1).2 in
  last (out w1) = Some (MSummary 2 0 0) ∧
  last (out w2) = Some (MSummary 0 2 0) ∧
  calls w2 = calls w1 ++ [ProbeDecoder "vgmstream-cli"; ProbeEncoder] ∧
  calls w2 ≠ calls w1.
Proof. vm_compute. repeat split; done. Qed.


(** The same with a decoder that is on disk and cannot be executed: the
    probe of line 116 raises [PermissionError], which the
    [except FileNotFoundError] clause does not take. *)
Example main_uncaught_probe_error :
  let r := (main env_no_exec prog ["/snd"; "./vgmstream-cli"] (world fs_tree)).1 in
  ¬ setup_error env_no_exec ["/snd"; "./vgmstream-cli"] (world fs_tree) ∧
  r = inl (OtherException "[Errno 13] Permission denied: './vgmstream-cli'") ∧
  exit_status r = 1%Z.
Proof.
  split; [|by vm_compute].
  intros [H|[H|[[? H]|(? & ? & ? & ? & H & _)]]]; vm_compute in H;
    try done. by apply H; eexists.
Qed.

(** * Further properties *)

(** ** [convert_file] *)

Section convert_file_more.
Context (env : Env) (input_path : Path) (vgmstream_cmd : string).
Context (wav_path ogg_path : Path).
Context (Hwav : Pth.with_suffix input_path ".wav" = inr wav_path).
Context (Hogg : Pth.with_suffix input_path ".ogg" = inr ogg_path).

(** The line a call that found no [.ogg] has printed when it returns. *)
Lemma convert_file_outcome_line w b w' :
  fs w !! ogg_path = None →
  convert_file env input_path vgmstream_cmd w = (inr b, w') →
  ∃ m, out w' = out w ++ [m] ∧
       if b then m = MOk (Pth.name ogg_path) else is_fail_line m = true.
Proof.
  intros Hno Hrun. unfold convert_file in Hrun. unfold_M.
  rewrite Hwav, Hogg, Hno in Hrun.
  run_cases; try (eexists; split; [reflexivity|reflexivity]).
  all: match goal with
       | H1 : bool_decide (is_Some (?f !! ?p)) = _, H2 : ?f !! ?p = _ |- _ =>
           rewrite H2 in H1; by vm_compute in H1
       end.
Qed.

(** A [True] that is not a skip has removed the [.wav]. *)
Lemma convert_file_converted_no_wav w w' :
  fs w !! ogg_path = None →
  convert_file env input_path vgmstream_cmd w = (inr true, w') →
  fs w' !! wav_path = None.
Proof.
  intros Hno Hrun. unfold convert_file in Hrun. unfold_M.
  rewrite Hwav, Hogg, Hno in Hrun.
  run_cases; apply lookup_delete_eq.
Qed.
(** The processes a returning call has launched, when the [.ogg] was
    not there: two for [True], one or two for [False]. *)
Lemma convert_file_calls w b w' :
  fs w !! ogg_path = None →
  convert_file env input_path vgmstream_cmd w = (inr b, w') →
  if b then length (calls w') = length (calls w) + 2
  else length (calls w) + 1 ≤ length (calls w') ≤ length (calls w) + 2.
Proof.
  intros Hno Hrun. unfold convert_file in Hrun. unfold_M.
  rewrite Hwav, Hogg, Hno in Hrun.
  run_cases; rewrite ?length_app; simpl; lia.
Qed.

(** The processes a call launches are those of its input. *)
Lemma convert_file_calls_for w r w' :
  convert_file env input_path vgmstream_cmd w = (r, w') →
  ∃ l, calls w' = calls w ++ l ∧ Forall (file_call vgmstream_cmd input_path) l.
Proof.
  intros Hrun. unfold convert_file in Hrun. unfold_M.
  rewrite Hwav, Hogg in Hrun.
  assert (file_call vgmstream_cmd input_path
            (Decode vgmstream_cmd wav_path input_path)) as Hd
    by (exists wav_path, ogg_path; auto).
  assert (file_call vgmstream_cmd input_path (Encode wav_path ogg_path)) as He
    by (exists wav_path, ogg_path; auto).
  run_cases; rewrite <- ?app_assoc; simpl;
    first [ by exists []; rewrite app_nil_r
          | by eexists [_]; split; [reflexivity|repeat constructor]
          | by eexists [_; _]; split; [reflexivity|repeat constructor] ].
Qed.
End convert_file_more.

Section convert_file_outcomes.
Context (env : Env) (input_path : Path) (vgmstream_cmd : string).
Context (wav_path ogg_path : Path).
Context (Hwav : Pth.with_suffix input_path ".wav" = inr wav_path).
Context (Hogg : Pth.with_suffix input_path ".ogg" = inr ogg_path).

Abbreviation dec := (Decode vgmstream_cmd wav_path input_path).
Abbreviation enc := (Encode wav_path ogg_path).

(** X1.  [True] from [convert_file] means that the [.ogg] is on disk;
    when it was not there at the call, the decoder and the encoder
    have both run, in this order, and the [.wav] is gone. *)
Theorem convert_file_true_means_converted w w' :
  convert_file env input_path vgmstream_cmd w = (inr true, w') →
  is_Some (fs w' !! ogg_path) ∧
  (fs w !! ogg_path = None →
   calls w' = calls w ++ [dec; enc] ∧ fs w' !! wav_path = None).
Proof.
  intros Hrun. unfold convert_file in Hrun. unfold_M.
  rewrite Hwav, Hogg in Hrun.
  pose proof (wav_ne_ogg _ _ _ _ Hwav Hogg) as Hne.
  run_cases.
  - split; [by eapply bool_decide_eq_true_1|].
    intros Hno. match goal with H : bool_decide _ = true |- _ =>
      rewrite Hno in H; by vm_compute in H end.
  - rewrite lookup_delete_ne by done.
    match goal with H : _ || _ = false |- _ =>
      apply orb_false_iff in H as [_ ?%negb_false_iff%bool_decide_eq_true_1] end.
    split; [done|]. intros _. rewrite <- app_assoc. split; [done|].
    apply lookup_delete_eq.
Qed.

(** X2.  [convert_file] launches nothing, or the decoder, or the
    decoder and then the encoder, on the paths derived from its input;
    and when it launches nothing it changes nothing on disk. *)
Theorem convert_file_launches w r w' :
  convert_file env input_path vgmstream_cmd w = (r, w') →
  (calls w' = calls w ∧ fs w' = fs w) ∨
  calls w' = calls w ++ [dec] ∨
  calls w' = calls w ++ [dec; enc].
Proof.
  intros Hrun. unfold convert_file in Hrun. unfold_M.
  rewrite Hwav, Hogg in Hrun.
  run_cases; rewrite <- ?app_assoc; simpl; auto.
Qed.

(** X3.  A call of [convert_file] that returns has printed one line,
    and the value returned goes with it: [True] with [SKIP] and [OK],
    [False] with the two [FAIL] and the two [ERROR] lines. *)
Theorem convert_file_reports_once w b w' :
  convert_file env input_path vgmstream_cmd w = (inr b, w') →
  ∃ m, out w' = out w ++ [m] ∧ is_convert_msg m = true ∧ b = reports_success m.
Proof.
  intros Hrun. unfold convert_file in Hrun. unfold_M.
  rewrite Hwav, Hogg in Hrun.
  run_cases; try (eexists; split; [reflexivity|split; reflexivity]).
  all: match goal with
       | H1 : bool_decide (is_Some (?f !! ?p)) = _, H2 : ?f !! ?p = _ |- _ =>
           rewrite H2 in H1; by vm_compute in H1
       end.
Qed.

(** X4.  When the encoder succeeds and the [.wav] is no longer there
    (the encoder, or anything else, removed it), the [unlink] of line
    65 raises [FileNotFoundError] and the clause of line 70 takes it:
    the file is reported as "Command not found: <the .wav path>" and
    [False] is returned, with the [.ogg] on disk. *)
Theorem convert_file_wav_vanished w err1 f1 err2 f2 :
  fs w !! ogg_path = None →
  env (calls w) (fs w) dec = Completed 0 err1 f1 →
  is_Some (f1 !! wav_path) →
  env (calls w ++ [dec]) f1 enc = Completed 0 err2 f2 →
  is_Some (f2 !! ogg_path) →
  f2 !! wav_path = None →
  convert_file env input_path vgmstream_cmd w
  = (inr false, {| fs := f2; calls := calls w ++ [dec; enc];
                   out := out w ++ [MCmdNotFound (Pth.str wav_path)] |}).
Proof.
  intros Hno Hdec Hw Henc Ho Hgone. unfold convert_file. py_run.
  by rewrite <- app_assoc.
Qed.

End convert_file_outcomes.


(** The clean-up fails on a [.wav] that cannot be removed as it does
    on a directory: the decoder leaves the locked [.wav] of an earlier
    run, the encoder succeeds, the [unlink] of line 65 raises
    [PermissionError], and so does the one of line 77. *)
Example convert_file_locked_wav :
  let r := convert_file env_idle_decoder (root ++ ["a.bgw"]) "vgmstream-cli"
             (world fs_locked_wav) in
  r.1 = inl (OSError "[Errno 13] Permission denied: '/snd/a.wav'") ∧
  out r.2 = [MError "[Errno 13] Permission denied: '/snd/a.wav'"] ∧
  is_Some (fs r.2 !! (root ++ ["a.ogg"])).
Proof. split; [|split]; [by vm_compute..|]. vm_compute. by eexists. Qed.

(** ** Discovery *)

Lemma NoDup_find_audio_files f folder : NoDup (find_audio_files f folder).
Proof.
  unfold find_audio_files, patterns. rewrite sorted_perm. simpl.
  assert (∀ e1 e2 p, e1 ≠ e2 → String.length e1 = String.length e2 →
            star_free e1 = true → star_free e2 = true →
            p ∈ rglob f folder (String "*" e1) →
            p ∉ rglob f folder (String "*" e2)) as Hdisj.
  { intros e1 e2 p Hne Hlen H1 H2 (_ & _ & Hm1)%elem_of_rglob
      (_ & _ & Hm2)%elem_of_rglob.
    rewrite glob_match_ext in Hm1, Hm2 by done.
    by pose proof (endswith_same _ _ _ Hm1 Hm2 Hlen). }
  repeat (apply NoDup_app; split; [|split]);
    try apply NoDup_rglob; try apply NoDup_nil_2.
  all: intros p Hp; repeat (apply elem_of_app in Hp as [Hp|Hp]);
    try (by apply elem_of_nil in Hp); by refine (Hdisj _ _ p _ _ _ _ Hp).
Qed.

Lemma Sorted_find_audio_files f folder : Sorted Pth.le (find_audio_files f folder).
Proof. apply Sorted_merge_sort; apply _. Qed.

(** Two lists of discovered files with the same members are the same
    list. *)
Lemma find_audio_files_ext f f' folder folder' :
  (∀ p, p ∈ find_audio_files f folder ↔ p ∈ find_audio_files f' folder') →
  find_audio_files f folder = find_audio_files f' folder'.
Proof.
  intros Hsame. apply (Sorted_unique Pth.le); try apply Sorted_find_audio_files.
  apply NoDup_Permutation; try apply NoDup_find_audio_files. done.
Qed.

(** X7.  What discovery returns, order included, depends on nothing but
    which paths below the folder with an audio name exist: neither on
    what the entries hold, nor on any other entry. *)
Theorem find_audio_files_depends_on_audio_entries f f' folder :
  (∀ p, below folder p = true → audio_name (Pth.name p) →
        (is_Some (f !! p) ↔ is_Some (f' !! p))) →
  find_audio_files f folder = find_audio_files f' folder.
Proof.
  intros Hsame. apply find_audio_files_ext. intros p.
  rewrite !elem_of_find_audio_files. split; intros (Hex & Hb & Hnm);
    (split; [|done]); by apply (Hsame p Hb Hnm).
Qed.

(** X8.  Discovery below a subfolder returns the files that discovery
    below the folder returns and that lie below the subfolder; the
    folder itself is never returned. *)
Theorem find_audio_files_subfolder f folder sub :
  below folder sub = true →
  (∀ p, p ∈ find_audio_files f sub ↔
        p ∈ find_audio_files f folder ∧ below sub p = true) ∧
  folder ∉ find_audio_files f folder.
Proof.
  intros (rel & Hne & Habs & ->)%below_iff. split.
  - intros p. rewrite !elem_of_find_audio_files. split.
    + intros (Hex & Hb & Hnm). split; [|done]. split; [done|]. split; [|done].
      apply below_iff in Hb as (rel' & Hne' & Habs' & ->).
      apply below_iff. exists (rel ++ rel'). split; [by destruct rel|].
      split; [by destruct rel|]. by rewrite app_assoc.
    + intros ((Hex & _ & Hnm) & Hb). done.
  - intros (_ & Hb%below_ne & _)%elem_of_find_audio_files. done.
Qed.

(** X9.  The order in which the file system lists the entries does not
    show in the result: sorting any list, without repetition, of the
    matching entries gives what [find_audio_files] returns. *)
Theorem sorted_any_enumeration f folder (l : list Path) :
  NoDup l →
  (∀ p, p ∈ l ↔
        is_Some (f !! p) ∧ below folder p = true ∧ audio_name (Pth.name p)) →
  sorted l = find_audio_files f folder.
Proof.
  intros Hnd Hl. apply (Sorted_unique Pth.le).
  - apply Sorted_merge_sort; apply _.
  - apply Sorted_find_audio_files.
  - rewrite sorted_perm. apply NoDup_Permutation;
      [done|apply NoDup_find_audio_files|].
    intros p. by rewrite Hl, elem_of_find_audio_files.
Qed.

(** ** The counts of lines 141-146 *)

Lemma rfind_dot_app a t j :
  Str.rfind_dot t = Some j → Str.rfind_dot (a +:+ t) = Some (String.length a + j).
Proof.
  intros Ht. induction a as [|c a IH]; [done|].
  rewrite sapp_cons. simpl. by rewrite IH.
Qed.

(** The suffix of a name that has something before one of the four
    extensions is that extension. *)
Lemma name_suffix_audio a ext :
  a ≠ "" → ext ∈ bare_names → Pth.name_suffix (a +:+ ext) = ext.
Proof.
  intros Ha Hext. unfold Pth.name_suffix.
  assert (Str.rfind_dot ext = Some 0 ∧ String.length ext = 4) as [Hdot Hlen].
  { unfold bare_names in Hext.
    repeat (apply elem_of_cons in Hext as [->|Hext]); [by vm_compute..|].
    by apply elem_of_nil in Hext. }
  rewrite (rfind_dot_app a ext 0 Hdot), Nat.add_0_r, slength_app, Hlen.
  assert (0 < String.length a) by (destruct a; [done|simpl; lia]).
  rewrite (proj2 (Nat.ltb_lt 0 _)) by done.
  rewrite (proj2 (Nat.ltb_lt _ _)) by lia. simpl.
  apply sdrop_app_length.
Qed.

Lemma filter_two_length {A} (P Q : A → Prop)
    `{∀ x, Decision (P x)} `{∀ x, Decision (Q x)} (l : list A) :
  (∀ x, P x → Q x → False) →
  length (filter P l) + length (filter Q l) ≤ length l ∧
  (Forall (λ x, P x ∨ Q x) l →
   length (filter P l) + length (filter Q l) = length l).
Proof.
  intros Hex. induction l as [|x l [IH1 IH2]]; [done|].
  rewrite !filter_cons. split.
  - destruct (decide (P x)), (decide (Q x)); simpl; try lia. by destruct (Hex x).
  - intros [Hx Hl%IH2]%Forall_cons.
    destruct (decide (P x)), (decide (Q x)); simpl; try lia.
    + by destruct (Hex x).
    + by destruct Hx.
Qed.

(** X10.  Of the three numbers of the [Found] lines, the [.bgw] and the
    [.spw] counts never add up to more than the total, and they add up
    to it when no discovered file is named by a bare extension; such a
    file ([.bgw], say), whose [suffix] is empty, is in neither count. *)
Theorem found_counts f folder :
  let audio_files := find_audio_files f folder in
  let bgw_count := length (filter is_bgw audio_files) in
  let spw_count := length (filter is_spw audio_files) in
  bgw_count + spw_count ≤ length audio_files ∧
  ((∀ p, p ∈ audio_files → Pth.name p ∉ bare_names) →
   bgw_count + spw_count = length audio_files) ∧
  (∀ p, p ∈ audio_files → Pth.name p ∈ bare_names → ¬ is_bgw p ∧ ¬ is_spw p).
Proof.
  intros audio_files bgw_count spw_count.
  destruct (filter_two_length is_bgw is_spw audio_files) as [Hle Heq].
  { unfold is_bgw, is_spw. intros p Hb Hs. by rewrite Hb in Hs. }
  split; [done|]. split.
  - intros Hbare. apply Heq. apply Forall_forall. intros p Hp.
    pose proof Hp as (_ & _ & ext & Hext & [a Ha]%endswith_iff)%elem_of_find_audio_files.
    assert (a ≠ "") as Hne.
    { intros ->. apply (Hbare p Hp). by rewrite Ha. }
    unfold is_bgw, is_spw, Pth.suffix. rewrite Ha.
    rewrite (name_suffix_audio a ext Hne Hext).
    repeat (apply elem_of_cons in Hext as [->|Hext]); auto.
    by apply elem_of_nil in Hext.
  - intros p _ Hbare. unfold is_bgw, is_spw, Pth.suffix, bare_names in *.
    repeat (apply elem_of_cons in Hbare as [->|Hbare]); [by vm_compute..|].
    by apply elem_of_nil in Hbare.
Qed.

(** ** The loop, file by file *)

Section loop_more.
Context (env : Env) (vgmstream_cmd : string) (sound_folder : Path) (n : nat).

Abbreviation step := (process_one env vgmstream_cmd sound_folder n).
Abbreviation loop := (process_files env vgmstream_cmd sound_folder n).

(** What a turn of the loop that returns has printed, and the counter
    it has moved. *)
Lemma process_one_printed i p t w t' w' :
  step i p t w = (inr t', w') →
  ∃ rel_path m,
    Pth.relative_to p sound_folder = inr rel_path ∧
    out w' = out w ++ [MProgress i n rel_path; m] ∧
    outcome_line p m ∧
    ((is_ok_line m = true ∧ t' = add_converted t) ∨
     (is_skip_line m = true ∧ t' = add_skipped t) ∨
     (is_fail_line m = true ∧ t' = add_failed t)).
Proof.
  unfold process_one. unfold_M. intros Hrun.
  destruct (Pth.relative_to p sound_folder) as [|rel_path]; [done|].
  destruct (Pth.with_suffix p ".ogg") as [|ogg_path] eqn:Hogg; [done|].
  simpl in Hrun. exists rel_path.
  case_bool_decide as Hdone.
  { injection Hrun as <- <-. exists MSkipExists. simpl.
    rewrite <- app_assoc. split; [done|]. split; [done|].
    split; [by left|]. right. left. done. }
  destruct (with_suffix_ogg_wav _ _ Hogg) as [wav_path Hwav].
  destruct (convert_file _ _ _ _) as [[e|b] w1] eqn:Hcf; [done|].
  apply (convert_file_outcome_line _ _ _ _ _ Hwav Hogg) in Hcf as (m & Hout & Hm);
    [|simpl; by apply eq_None_not_Some].
  exists m. simpl in Hout. rewrite <- app_assoc in Hout.
  split; [done|].
  destruct b; injection Hrun as <- <-; (split; [done|]).
  - split; [right; left; by exists ogg_path|]. subst m. by left.
  - split; [by right; right|]. by right; right.
Qed.

(** When the loop runs to its end it has printed, for each file in
    turn, the progress line and the line of its outcome, and each
    counter has moved by the number of lines of its kind. *)
Lemma process_files_printed files i t w t' w' :
  loop i files t w = (inr t', w') →
  ∃ rels ms,
    out w' = out w ++ report n i rels ms ∧
    Forall2 (λ p rel_path, Pth.relative_to p sound_folder = inr rel_path)
            files rels ∧
    Forall2 outcome_line files ms ∧
    converted t' = converted t + length (List.filter is_ok_line ms) ∧
    skipped t' = skipped t + length (List.filter is_skip_line ms) ∧
    failed t' = failed t + length (List.filter is_fail_line ms).
Proof.
  revert i t w. induction files as [|p files IH]; intros i t w.
  - intros [= <- <-]. exists [], []. simpl. rewrite app_nil_r.
    repeat split; [constructor|constructor|lia..].
  - rewrite process_files_cons.
    destruct (step i p t w) as [[e|t1] w1] eqn:Hone; [done|].
    intros (rels & ms & Hout & Hrels & Hms & Hc & Hs & Hf)%IH.
    apply process_one_printed in Hone as (rel_path & m & Hrel & Hout1 & Hline & Hm).
    exists (rel_path :: rels), (m :: ms).
    split; [by rewrite Hout, Hout1, <- app_assoc|].
    split; [by constructor|]. split; [by constructor|].
    simpl.
    destruct Hm as [[Hm ->]|[[Hm ->]|[Hm ->]]]; simpl in *;
      destruct m; try done; simpl; lia.
Qed.

(** X11.  Two inputs with one stem share their [.ogg] path.  Under the
    tool contract, once one of them has been processed without failure
    the other is counted as skipped whenever the loop comes to it,
    whatever was processed in between: it is never converted. *)
Theorem same_stem_is_skipped i p t w t1 w1 j between t2 w2 k q t3 :
  tool_contract env →
  step i p t w = (inr t1, w1) →
  failed t1 = failed t →
  loop j between t1 w1 = (inr t2, w2) →
  Pth.with_suffix q ".ogg" = Pth.with_suffix p ".ogg" →
  below sound_folder q = true →
  ∃ w3, step k q t3 w2 = (inr (add_skipped t3), w3) ∧
        calls w3 = calls w2 ∧ fs w3 = fs w2.
Proof.
  intros Hc Hone Hfail Hloop Hsame Hb.
  pose proof Hone as (ogg_path & Hogg & Ht)%process_one_tally.
  assert (is_Some (fs w1 !! ogg_path)) as Hex.
  { case_bool_decide as Hdone.
    - eapply process_one_done in Hone as [-> _]; [done|]. by exists ogg_path.
    - destruct Ht as [[_ ?]| ->]; [done|]. simpl in Hfail. lia. }
  assert (is_Some (fs w2 !! ogg_path)) as Hex2.
  { erewrite (process_files_keeps_ogg _ _ _ _ Hc); [done..|].
    by eapply with_suffix_name. }
  unfold below in Hb.
  destruct (Pth.relative_to q sound_folder) as [|rel_path] eqn:Hrel; [done|].
  eexists. split.
  { eapply process_one_skip; [done| |done]. by rewrite Hsame. }
  done.
Qed.

Lemma sapp_inj_r (a b e : string) : a +:+ e = b +:+ e → a = b.
Proof.
  revert b. induction a as [|c a IH]; intros [|d b] Heq; [done|..].
  - apply (f_equal String.length) in Heq.
    rewrite sapp_cons, sapp_nil_l in Heq. simpl in Heq.
    rewrite slength_app in Heq. lia.
  - apply (f_equal String.length) in Heq.
    rewrite sapp_cons, sapp_nil_l in Heq. simpl in Heq.
    rewrite slength_app in Heq. lia.
  - rewrite !sapp_cons in Heq. injection Heq as -> Heq. f_equal. by apply IH.
Qed.

(** Inputs with one [.wav] path have one [.ogg] path. *)
Lemma same_wav_same_ogg p p' wav_path ogg_path ogg_path' :
  Pth.with_suffix p ".wav" = inr wav_path →
  Pth.with_suffix p' ".wav" = inr wav_path →
  Pth.with_suffix p ".ogg" = inr ogg_path →
  Pth.with_suffix p' ".ogg" = inr ogg_path' →
  ogg_path' = ogg_path.
Proof.
  unfold Pth.with_suffix. simpl.
  destruct (bool_decide (Pth.name p = "")); [done|].
  destruct (bool_decide (Pth.name p' = "")); [done|].
  intros [= <-] [= Heq] [= <-] [= <-].
  apply app_inj_tail in Heq as [-> Heq%sapp_inj_r]. by rewrite Heq.
Qed.

Lemma process_one_mono i p t w t' w' :
  step i p t w = (inr t', w') →
  converted t ≤ converted t' ∧ skipped t ≤ skipped t' ∧ failed t ≤ failed t'.
Proof.
  intros (ogg_path & _ & H)%process_one_tally.
  destruct (bool_decide _); [|destruct H as [[? _]|?]]; subst; simpl; lia.
Qed.

Lemma process_files_mono files i t w t' w' :
  loop i files t w = (inr t', w') →
  converted t ≤ converted t' ∧ skipped t ≤ skipped t' ∧ failed t ≤ failed t'.
Proof.
  revert i t w. induction files as [|p files IH]; intros i t w.
  - intros [= <- <-]. lia.
  - rewrite process_files_cons.
    destruct (step i p t w) as [[e|t1] w1] eqn:Hone; [done|].
    intros ?%IH. apply process_one_mono in Hone. lia.
Qed.

(** A turn that converts leaves the [.ogg] and no [.wav]. *)
Lemma process_one_converted i p t w t' w' wav_path ogg_path :
  Pth.with_suffix p ".wav" = inr wav_path →
  Pth.with_suffix p ".ogg" = inr ogg_path →
  step i p t w = (inr t', w') →
  skipped t' = skipped t → failed t' = failed t →
  fs w' !! wav_path = None ∧ is_Some (fs w' !! ogg_path).
Proof.
  intros Hwav Hogg. unfold process_one. unfold_M. rewrite Hogg. intros Hrun Hs Hf.
  destruct (Pth.relative_to p sound_folder) as [|rel_path]; [done|].
  simpl in Hrun. case_bool_decide as Hdone.
  { injection Hrun as <- <-. simpl in Hs. lia. }
  destruct (convert_file _ _ _ _) as [[e|[]] w1] eqn:Hcf; [done|..];
    injection Hrun as <- <-; [|simpl in Hf; lia].
  split.
  - eapply convert_file_converted_no_wav; [done..| |done].
    simpl. by apply eq_None_not_Some.
  - by eapply convert_file_true.
Qed.

(** The processes a turn has launched, against the counters: two for
    a conversion, one or two for a failure, none for a skip. *)
Lemma process_one_calls i p t w t' w' :
  step i p t w = (inr t', w') →
  2 * converted t' + failed t' + length (calls w)
  ≤ 2 * converted t + failed t + length (calls w') ∧
  length (calls w') + 2 * (converted t + failed t)
  ≤ length (calls w) + 2 * (converted t' + failed t').
Proof.
  unfold process_one. unfold_M. intros Hrun.
  destruct (Pth.relative_to p sound_folder) as [|rel_path]; [done|].
  destruct (Pth.with_suffix p ".ogg") as [|ogg_path] eqn:Hogg; [done|].
  simpl in Hrun. case_bool_decide as Hdone.
  { injection Hrun as <- <-. simpl. lia. }
  destruct (with_suffix_ogg_wav _ _ Hogg) as [wav_path Hwav].
  destruct (convert_file _ _ _ _) as [[e|b] w1] eqn:Hcf; [done|].
  apply (convert_file_calls _ _ _ _ _ Hwav Hogg) in Hcf;
    [|simpl; by apply eq_None_not_Some].
  simpl in Hcf. destruct b; injection Hrun as <- <-; simpl; lia.
Qed.

Lemma process_files_calls files i t w t' w' :
  loop i files t w = (inr t', w') →
  2 * converted t' + failed t' + length (calls w)
  ≤ 2 * converted t + failed t + length (calls w') ∧
  length (calls w') + 2 * (converted t + failed t)
  ≤ length (calls w) + 2 * (converted t' + failed t').
Proof.
  revert i t w. induction files as [|p files IH]; intros i t w.
  - intros [= <- <-]. lia.
  - rewrite process_files_cons.
    destruct (step i p t w) as [[e|t1] w1] eqn:Hone; [done|].
    intros ?%IH. apply process_one_calls in Hone. lia.
Qed.

(** The processes a turn launches are those of its file. *)
Lemma process_one_calls_for i p t w r w' :
  step i p t w = (r, w') →
  ∃ l, calls w' = calls w ++ l ∧ Forall (file_call vgmstream_cmd p) l.
Proof.
  unfold process_one. unfold_M. intros Hrun.
  destruct (Pth.relative_to p sound_folder) as [|rel_path];
    [injection Hrun as _ <-; exists []; by rewrite app_nil_r|].
  destruct (Pth.with_suffix p ".ogg") as [|ogg_path] eqn:Hogg;
    [injection Hrun as _ <-; exists []; by rewrite app_nil_r|].
  simpl in Hrun. case_bool_decide as Hdone.
  { injection Hrun as _ <-. exists []. by rewrite app_nil_r. }
  destruct (with_suffix_ogg_wav _ _ Hogg) as [wav_path Hwav].
  destruct (convert_file _ _ _ _) as [r1 w1] eqn:Hcf.
  apply (convert_file_calls_for _ _ _ _ _ Hwav Hogg) in Hcf as (l & Hl & Hfor).
  exists l. split; [|done]. simpl in Hl. rewrite <- Hl.
  by destruct r1 as [e|[]]; injection Hrun as _ <-.
Qed.

Lemma process_files_calls_for files i t w r w' :
  loop i files t w = (r, w') →
  ∃ l, calls w' = calls w ++ l ∧
       Forall (λ c, ∃ p, p ∈ files ∧ file_call vgmstream_cmd p c) l.
Proof.
  revert i t w. induction files as [|p files IH]; intros i t w.
  - intros [= _ <-]. exists []. by rewrite app_nil_r.
  - rewrite process_files_cons.
    destruct (step i p t w) as [[e|t1] w1] eqn:Hone;
      apply process_one_calls_for in Hone as (l1 & Hl1 & Hfor1).
    + intros [= _ <-]. exists l1. split; [done|].
      eapply Forall_impl; [done|]. intros c Hc. exists p. split; [left|done].
    + intros (l2 & Hl2 & Hfor2)%IH. exists (l1 ++ l2).
      split; [by rewrite Hl2, Hl1, <- app_assoc|]. apply Forall_app. split.
      * eapply Forall_impl; [done|]. intros c Hc. exists p. split; [left|done].
      * eapply Forall_impl; [done|]. intros c (q & Hq & Hc).
        exists q. split; [by right|done].
Qed.

Context (Hc : tool_contract env).

(** A file that is converted stays so until the loop ends. *)
Lemma process_one_keeps_converted i p' t w r w' p wav_path ogg_path :
  Pth.with_suffix p ".wav" = inr wav_path →
  Pth.with_suffix p ".ogg" = inr ogg_path →
  step i p' t w = (r, w') →
  fs w !! wav_path = None → is_Some (fs w !! ogg_path) →
  fs w' !! wav_path = None ∧ is_Some (fs w' !! ogg_path).
Proof.
  intros Hwav Hogg Hrun Hnw Hex.
  split; [|by erewrite (process_one_keeps_ogg _ _ _ _ Hc);
               [done..|eapply with_suffix_name]].
  destruct (Pth.with_suffix p' ".ogg") as [e|ogg_path'] eqn:Hogg'.
  { rewrite <- Hnw. eapply (process_one_frame_derived _ _ _ _ Hc); [done|].
    intros d [Hd|Hd] ->; [|congruence].
    apply with_suffix_inv in Hd as (_ & Hnm & _).
    destruct (with_suffix_total p' ".ogg" eq_refl Hnm). congruence. }
  destruct (with_suffix_ogg_wav _ _ Hogg') as [wav_path' Hwav'].
  destruct (decide (wav_path' = wav_path)) as [->|Hne].
  - assert (ogg_path' = ogg_path) as -> by by eapply (same_wav_same_ogg p p').
    eapply process_one_done in Hrun as [-> _]; [done|]. by exists ogg_path.
  - rewrite <- Hnw. eapply (process_one_frame_derived _ _ _ _ Hc); [done|].
    intros d [Hd|Hd] ->; [congruence|].
    by eapply (wav_ne_ogg p p').
Qed.

Lemma process_files_keeps_converted files i t w r w' p wav_path ogg_path :
  Pth.with_suffix p ".wav" = inr wav_path →
  Pth.with_suffix p ".ogg" = inr ogg_path →
  loop i files t w = (r, w') →
  fs w !! wav_path = None → is_Some (fs w !! ogg_path) →
  fs w' !! wav_path = None ∧ is_Some (fs w' !! ogg_path).
Proof.
  intros Hwav Hogg. revert i t w.
  induction files as [|p' files IH]; intros i t w.
  - by intros [= <- <-].
  - rewrite process_files_cons. intros Hrun Hnw Hex.
    destruct (step i p' t w) as [[e|t1] w1] eqn:Hone.
    + injection Hrun as <- <-. by eapply process_one_keeps_converted.
    + eapply process_one_keeps_converted in Hone as [? ?]; [|done..].
      by eapply IH.
Qed.

(** A loop that converts every file (nothing skipped, nothing failed)
    ends with the [.ogg] of each file on disk and the [.wav] of none. *)
Lemma process_files_all_converted files i t w t' w' :
  loop i files t w = (inr t', w') →
  skipped t' = skipped t → failed t' = failed t →
  ∀ p wav_path ogg_path,
    p ∈ files →
    Pth.with_suffix p ".wav" = inr wav_path →
    Pth.with_suffix p ".ogg" = inr ogg_path →
    fs w' !! wav_path = None ∧ is_Some (fs w' !! ogg_path).
Proof.
  revert i t w. induction files as [|p0 files IH]; intros i t w.
  - intros _ _ _ p ? ? Hp. by apply elem_of_nil in Hp.
  - rewrite process_files_cons.
    destruct (step i p0 t w) as [[e|t1] w1] eqn:Hone; [done|].
    intros Hrun Hs Hf p wav_path ogg_path Hp Hwav Hogg.
    pose proof (process_files_mono _ _ _ _ _ _ Hrun) as (_ & ? & ?).
    pose proof (process_one_mono _ _ _ _ _ _ Hone) as (_ & ? & ?).
    apply elem_of_cons in Hp as [->|Hp]; [|eapply IH; [done|lia..|done|done|done]].
    eapply process_one_converted in Hone as [? ?]; [|done|done|lia|lia].
    by eapply process_files_keeps_converted.
Qed.
End loop_more.

(** ** [main], as a whole *)

Section main_more.
Context (env : Env) (argv0 arg1 : string) (rest : list string).

Abbreviation sound_folder := (Pth.of_string arg1).
Abbreviation vgmstream_cmd := (vgmstream_arg rest).
Abbreviation probe1 := (ProbeDecoder vgmstream_cmd).

(** The ways through [main] before the scan, with what each leaves. *)
Lemma main_cases w r w' :
  main env argv0 (arg1 :: rest) w = (r, w') →
  (fs w !! sound_folder ≠ Some Dir ∧ r = inl (SystemExit 1) ∧
   calls w' = calls w ∧ fs w' = fs w) ∨
  (fs w !! sound_folder = Some Dir ∧
   (∀ rc err f1, env (calls w) (fs w) probe1 ≠ Completed rc err f1) ∧
   r ≠ inr tt ∧ r ≠ inl (SystemExit 0) ∧
   calls w' = calls w ++ [probe1] ∧
   fs w' = fs_after (env (calls w) (fs w) probe1) (fs w)) ∨
  (∃ rc1 err1 f1,
     fs w !! sound_folder = Some Dir ∧
     env (calls w) (fs w) probe1 = Completed rc1 err1 f1 ∧
     (∀ rc err f2, env (calls w ++ [probe1]) f1 ProbeEncoder ≠ Completed rc err f2) ∧
     r ≠ inr tt ∧ r ≠ inl (SystemExit 0) ∧
     calls w' = calls w ++ [probe1; ProbeEncoder] ∧
     fs w' = fs_after (env (calls w ++ [probe1]) f1 ProbeEncoder) f1) ∨
  (∃ rc1 err1 f1 rc2 err2 f2,
     fs w !! sound_folder = Some Dir ∧
     env (calls w) (fs w) probe1 = Completed rc1 err1 f1 ∧
     env (calls w ++ [probe1]) f1 ProbeEncoder = Completed rc2 err2 f2).
Proof.
  intros Hrun.
  destruct (fs w !! sound_folder) as [[content| |content]|] eqn:Hdir.
  - left. revert Hrun. main_run. by intros [= <- <-].
  - destruct (env (calls w) (fs w) probe1) as [rc1 err1 f1|filename|msg f1] eqn:Hp1.
    + destruct (env (calls w ++ [probe1]) f1 ProbeEncoder)
        as [rc2 err2 f2|filename|msg f2] eqn:Hp2.
      * do 3 right. by exists rc1, err1, f1, rc2, err2, f2.
      * do 2 right. left. exists rc1, err1, f1. revert Hrun. main_run.
        intros [= <- <-]. simpl. by rewrite <- app_assoc.
      * do 2 right. left. exists rc1, err1, f1. revert Hrun. main_run.
        intros [= <- <-]. simpl. by rewrite <- app_assoc.
    + right. left. revert Hrun. main_run. by intros [= <- <-].
    + right. left. revert Hrun. main_run. by intros [= <- <-].
  - left. revert Hrun. main_run. by intros [= <- <-].
  - left. revert Hrun. main_run. by intros [= <- <-].
Qed.

(** X12.  [main] raises [SystemExit] before any file is processed: by
    then it has launched no process when the folder is missing or not a
    directory, and at most the two probes otherwise, never the decoder
    or the encoder on a file. *)
Theorem main_exits_before_converting w code w' :
  main env argv0 (arg1 :: rest) w = (inl (SystemExit code), w') →
  (fs w !! sound_folder ≠ Some Dir → calls w' = calls w ∧ fs w' = fs w) ∧
  (calls w' = calls w ∨
   calls w' = calls w ++ [probe1] ∨
   calls w' = calls w ++ [probe1; ProbeEncoder]).
Proof.
  intros Hrun.
  destruct (main_cases _ _ _ Hrun)
    as [(Hdir & _ & Hcalls & Hfs)|[(Hdir & _ & _ & _ & Hcalls & _)|
        [(rc1 & err1 & f1 & Hdir & _ & _ & _ & _ & Hcalls & _)|
         (rc1 & err1 & f1 & rc2 & err2 & f2 & Hdir & Hp1 & Hp2)]]].
  - split; [done|by left].
  - split; [done|]. right. by left.
  - split; [done|]. right. by right.
  - split; [done|]. right. right.
    rewrite (main_probed env argv0 arg1 rest _ _ _ _ _ _ _ Hdir Hp1 Hp2) in Hrun.
    simpl in Hrun.
    destruct (find_audio_files f2 sound_folder) as [|p files];
      [by injection Hrun as _ <-|].
    destruct (process_files _ _ _ _ _ _ _ _) as [[e|t] w3] eqn:Hloop; [|done].
    injection Hrun as -> _. by apply process_files_raises in Hloop.
Qed.

(** X13.  The report of a run that reaches its end, line by line: the
    header, whose counts are those of the files found once both probes
    have returned; then for each of the [N] files, in the order of
    discovery, its progress line [[k/N]] with [k] from 1 to [N] and
    its path relative to the folder, followed by the one line of its
    outcome (the skip, [OK] with the name of its [.ogg], or a [FAIL]
    or [ERROR] line); then the summary, whose three numbers are the
    numbers of [OK], of skip and of [FAIL] or [ERROR] lines above it,
    [N] in all. *)
Theorem main_report w w' :
  main env argv0 (arg1 :: rest) w = (inr tt, w') →
  ∃ rc1 err1 f1 rc2 err2 f2 rels ms,
    env (calls w) (fs w) probe1 = Completed rc1 err1 f1 ∧
    env (calls w ++ [probe1]) f1 ProbeEncoder = Completed rc2 err2 f2 ∧
    let audio_files := find_audio_files f2 sound_folder in
    let N := length audio_files in
    let c := length (List.filter is_ok_line ms) in
    let s := length (List.filter is_skip_line ms) in
    let f := length (List.filter is_fail_line ms) in
    out w' = out w
             ++ [MChecking; MDecoderOk vgmstream_cmd; MEncoderOk; MBlank;
                 MScanning sound_folder;
                 MFound (length (filter is_bgw audio_files))
                        (length (filter is_spw audio_files)) N;
                 MConverting]
             ++ report N 1 rels ms ++ [MSummary c s f] ∧
    0 < N ∧ c + s + f = N ∧
    Forall2 (λ p rel_path, Pth.relative_to p sound_folder = inr rel_path)
            audio_files rels ∧
    Forall2 outcome_line audio_files ms.
Proof.
  intros Hrun.
  destruct (main_cases _ _ _ Hrun)
    as [(_ & ? & _)|[(_ & _ & ? & _)|
        [(rc1 & err1 & f1 & _ & _ & _ & ? & _)|
         (rc1 & err1 & f1 & rc2 & err2 & f2 & Hdir & Hp1 & Hp2)]]]; try done.
  rewrite (main_probed env argv0 arg1 rest _ _ _ _ _ _ _ Hdir Hp1 Hp2) in Hrun.
  simpl in Hrun.
  destruct (find_audio_files f2 sound_folder) as [|p0 files0] eqn:Hfiles; [done|].
  rewrite <- Hfiles in *.
  destruct (process_files _ _ _ _ _ _ _ _) as [[e|t] w3] eqn:Hloop; [done|].
  injection Hrun as <-.
  pose proof (process_files_total _ _ _ _ _ _ _ _ _ _ Hloop) as [Htot _].
  apply process_files_printed in Hloop
    as (rels & ms & Hout & Hrels & Hms & Hc & Hs & Hf).
  exists rc1, err1, f1, rc2, err2, f2, rels, ms.
  split; [done|]. split; [done|]. simpl in *.
  rewrite Hc, Hs, Hf in *. unfold tally_total in Htot. simpl in Htot.
  split.
  { rewrite Hout. simpl. rewrite <- !app_assoc. done. }
  split; [rewrite Hfiles; simpl; lia|].
  split; [lia|]. done.
Qed.

(** X14.  The processes a run that reaches its end has launched are
    the two probes and, for the files, at least two for each
    conversion and one for each failure, at most two for each of
    both; none for a skip. *)
Theorem main_launch_count w w' c s f :
  main env argv0 (arg1 :: rest) w = (inr tt, w') →
  last (out w') = Some (MSummary c s f) →
  length (calls w) + 2 + 2 * c + f ≤ length (calls w') ∧
  length (calls w') ≤ length (calls w) + 2 + 2 * (c + f).
Proof.
  intros Hrun Hsum.
  destruct (main_cases _ _ _ Hrun)
    as [(_ & ? & _)|[(_ & _ & ? & _)|
        [(rc1 & err1 & f1 & _ & _ & _ & ? & _)|
         (rc1 & err1 & f1 & rc2 & err2 & f2 & Hdir & Hp1 & Hp2)]]]; try done.
  rewrite (main_probed env argv0 arg1 rest _ _ _ _ _ _ _ Hdir Hp1 Hp2) in Hrun.
  simpl in Hrun.
  destruct (find_audio_files f2 sound_folder) as [|p0 files0]; [done|].
  destruct (process_files _ _ _ _ _ _ _ _) as [[e|t] w3] eqn:Hloop; [done|].
  injection Hrun as <-. simpl in *. rewrite last_snoc in Hsum.
  injection Hsum as <- <- <-.
  apply process_files_calls in Hloop. simpl in Hloop.
  rewrite length_app in Hloop. simpl in Hloop. lia.
Qed.
End main_more.

(** ** [main] under the tool contract *)

Section main_contract.
Context (env : Env) (Hc : tool_contract env).

(** A probe changes nothing on disk, however it ends. *)
Lemma probe_frame h f c : writes c = [] → fs_after (env h f c) f = f.
Proof.
  intros Hw. apply map_eq. intros p. apply Hc. rewrite Hw. apply not_elem_of_nil.
Qed.

(** [main] changes no path but the [.wav] and [.ogg] paths of the files
    it discovers. *)
Lemma main_frame argv0 arg1 rest w r w' q :
  main env argv0 (arg1 :: rest) w = (r, w') →
  (∀ p d, p ∈ find_audio_files (fs w) (Pth.of_string arg1) →
          derived p d → q ≠ d) →
  fs w' !! q = fs w !! q.
Proof.
  intros Hrun Hq.
  destruct (main_cases _ _ _ _ _ _ _ Hrun)
    as [(_ & _ & _ & ->)|[(_ & _ & _ & _ & _ & ->)|
        [(rc1 & err1 & f1 & _ & Hp1 & _ & _ & _ & _ & ->)|
         (rc1 & err1 & f1 & rc2 & err2 & f2 & Hdir & Hp1 & Hp2)]]].
  - done.
  - by rewrite probe_frame.
  - pose proof (probe_frame (calls w) (fs w)
                  (ProbeDecoder (vgmstream_arg rest)) eq_refl) as H1.
    rewrite Hp1 in H1. simpl in H1. subst f1. by rewrite probe_frame.
  - pose proof (probe_frame (calls w) (fs w)
                  (ProbeDecoder (vgmstream_arg rest)) eq_refl) as H1.
    rewrite Hp1 in H1. simpl in H1. subst f1.
    pose proof (probe_frame (calls w ++ [ProbeDecoder (vgmstream_arg rest)])
                  (fs w) ProbeEncoder eq_refl) as H2.
    rewrite Hp2 in H2. simpl in H2. subst f2.
    rewrite (main_probed env argv0 arg1 rest _ _ _ _ _ _ _ Hdir Hp1 Hp2) in Hrun.
    simpl in Hrun.
    destruct (find_audio_files (fs w) (Pth.of_string arg1)) as [|p0 files0] eqn:Hfiles;
      [by injection Hrun as _ <-|].
    rewrite <- Hfiles in *.
    destruct (process_files _ _ _ _ _ _ _ _) as [[e|t] w3] eqn:Hloop;
      injection Hrun as _ <-; simpl;
      by rewrite (process_files_frame _ _ _ _ Hc _ _ _ _ _ _ _ Hloop Hq).
Qed.

(** What a run of [main] that reaches its end has gone through. *)
Lemma main_loop argv0 arg1 rest w w' :
  main env argv0 (arg1 :: rest) w = (inr tt, w') →
  let sound_folder := Pth.of_string arg1 in
  let audio_files := find_audio_files (fs w) sound_folder in
  ∃ w2 t w3,
    fs w2 = fs w ∧
    length (calls w2) = length (calls w) + 2 ∧
    process_files env (vgmstream_arg rest) sound_folder (length audio_files) 1
      audio_files (mkTally 0 0 0) w2 = (inr t, w3) ∧
    fs w' = fs w3 ∧ calls w' = calls w3 ∧
    last (out w') = Some (MSummary (converted t) (skipped t) (failed t)).
Proof.
  intros Hrun sound_folder audio_files.
  destruct (main_cases _ _ _ _ _ _ _ Hrun)
    as [(_ & ? & _)|[(_ & _ & ? & _)|
        [(rc1 & err1 & f1 & _ & _ & _ & ? & _)|
         (rc1 & err1 & f1 & rc2 & err2 & f2 & Hdir & Hp1 & Hp2)]]]; try done.
  pose proof (probe_frame (calls w) (fs w)
                  (ProbeDecoder (vgmstream_arg rest)) eq_refl) as H1.
  rewrite Hp1 in H1. simpl in H1. subst f1.
  pose proof (probe_frame (calls w ++ [ProbeDecoder (vgmstream_arg rest)])
                (fs w) ProbeEncoder eq_refl) as H2.
  rewrite Hp2 in H2. simpl in H2. subst f2.
  rewrite (main_probed env argv0 arg1 rest _ _ _ _ _ _ _ Hdir Hp1 Hp2) in Hrun.
  simpl in Hrun. fold sound_folder audio_files in Hrun.
  destruct audio_files as [|p0 files0] eqn:Hfiles; [done|].
  destruct (process_files _ _ _ _ _ _ _ _) as [[e|t] w3] eqn:Hloop; [done|].
  injection Hrun as <-. eexists _, t, w3. split; [|split; [|split; [exact Hloop|]]].
  - done.
  - simpl. rewrite length_app. simpl. lia.
  - simpl. by rewrite last_snoc.
Qed.

(** X15.  Under the tool contract a run of [main], however it ends,
    changes no path other than the [.wav] and [.ogg] paths of the files
    it discovers: the folder, the files of other kinds and the other
    folders are as before. *)
Theorem main_touches_only_derived argv0 argv w r w' q :
  main env argv0 argv w = (r, w') →
  (∀ arg1 rest p d,
     argv = arg1 :: rest →
     p ∈ find_audio_files (fs w) (Pth.of_string arg1) → derived p d → q ≠ d) →
  fs w' !! q = fs w !! q.
Proof.
  destruct argv as [|arg1 rest]; [by intros [= _ <-]|].
  intros Hrun Hq. eapply main_frame; [done|]. intros p d. by apply (Hq arg1 rest).
Qed.

(** X16.  Under the tool contract a run of [main], however it ends,
    leaves every entry with an audio name as it was, the inputs among
    them; and discovery, below any folder, returns after the run what
    it returned before. *)
Theorem main_keeps_inputs argv0 argv w r w' :
  main env argv0 argv w = (r, w') →
  (∀ q, audio_name (Pth.name q) → fs w' !! q = fs w !! q) ∧
  (∀ folder, find_audio_files (fs w') folder = find_audio_files (fs w) folder).
Proof.
  intros Hrun.
  assert (∀ q, audio_name (Pth.name q) → fs w' !! q = fs w !! q) as Haudio.
  { intros q Hq. destruct argv as [|arg1 rest]; [by injection Hrun as _ <-|].
    eapply main_frame; [done|]. intros p d _ Hd.
    by eapply audio_name_not_derived. }
  split; [done|]. intros folder. apply find_audio_files_ext. intros p.
  rewrite !elem_of_find_audio_files.
  split; intros (Hex & Hb & Hnm); (split; [|done]).
  - by rewrite <- Haudio.
  - by rewrite Haudio.
Qed.

(** X17.  Under the tool contract, when the summary of a run shows no
    failure, the [.ogg] of every discovered file is on disk; when it
    shows no skip either, the [.wav] of none is left. *)
Theorem main_no_failure_leaves_outputs argv0 arg1 rest w w' c s :
  main env argv0 (arg1 :: rest) w = (inr tt, w') →
  last (out w') = Some (MSummary c s 0) →
  ∀ p, p ∈ find_audio_files (fs w) (Pth.of_string arg1) →
    has_ogg (fs w') p ∧
    (s = 0 → ∀ wav_path, Pth.with_suffix p ".wav" = inr wav_path →
             fs w' !! wav_path = None).
Proof.
  intros (w2 & t & w3 & Hfs2 & _ & Hloop & -> & _ & Hlast)%main_loop Hsum p Hp.
  rewrite Hlast in Hsum. injection Hsum as _ Hs Hf.
  pose proof (process_files_all_done _ _ _ _ Hc _ _ _ _ _ _ Hloop Hf p Hp) as Hogg.
  split; [done|]. intros -> wav_path Hwav.
  destruct Hogg as (ogg_path & Hogg & _).
  by destruct (process_files_all_converted _ _ _ _ Hc _ _ _ _ _ _ Hloop Hs Hf
                 p wav_path ogg_path Hp Hwav Hogg).
Qed.

(** X18.  Under the tool contract, whatever a run of [main] launches
    is one of the two probes or, for a file it discovers, the decoder
    named on the command line on that file or the encoder on its
    [.wav]: no tool is run on anything else. *)
Theorem main_launches_for_discovered argv0 arg1 rest w r w' :
  main env argv0 (arg1 :: rest) w = (r, w') →
  ∃ l, calls w' = calls w ++ l ∧
       ∀ c, c ∈ l →
         c = ProbeDecoder (vgmstream_arg rest) ∨ c = ProbeEncoder ∨
         ∃ p, p ∈ find_audio_files (fs w) (Pth.of_string arg1) ∧
              file_call (vgmstream_arg rest) p c.
Proof.
  intros Hrun.
  destruct (main_cases _ _ _ _ _ _ _ Hrun)
    as [(_ & _ & Hcalls & _)|[(_ & _ & _ & _ & Hcalls & _)|
        [(rc1 & err1 & f1 & _ & _ & _ & _ & _ & Hcalls & _)|
         (rc1 & err1 & f1 & rc2 & err2 & f2 & Hdir & Hp1 & Hp2)]]].
  - exists []. rewrite app_nil_r. split; [done|]. by intros c ?%elem_of_nil.
  - eexists. split; [done|]. intros c ->%list_elem_of_singleton. auto.
  - eexists. split; [done|].
    intros c [-> | ->%list_elem_of_singleton]%elem_of_cons; auto.
  - pose proof (probe_frame (calls w) (fs w)
                  (ProbeDecoder (vgmstream_arg rest)) eq_refl) as H1.
    rewrite Hp1 in H1. simpl in H1. subst f1.
    pose proof (probe_frame (calls w ++ [ProbeDecoder (vgmstream_arg rest)])
                  (fs w) ProbeEncoder eq_refl) as H2.
    rewrite Hp2 in H2. simpl in H2. subst f2.
    rewrite (main_probed env argv0 arg1 rest _ _ _ _ _ _ _ Hdir Hp1 Hp2) in Hrun.
    simpl in Hrun.
    destruct (find_audio_files (fs w) (Pth.of_string arg1)) as [|p0 files0] eqn:Hfiles.
    { injection Hrun as _ <-. eexists. split; [done|].
      intros c [-> | ->%list_elem_of_singleton]%elem_of_cons; auto. }
    rewrite <- Hfiles in *.
    destruct (process_files _ _ _ _ _ _ _ _) as [r3 w3] eqn:Hloop.
    apply process_files_calls_for in Hloop as (l & Hl & Hfor). simpl in Hl.
    exists ([ProbeDecoder (vgmstream_arg rest); ProbeEncoder] ++ l). split.
    { rewrite app_assoc, <- Hl. by destruct r3 as [e|t]; injection Hrun as _ <-. }
    intros c [Hc1|Hc2]%elem_of_app.
    + apply elem_of_cons in Hc1 as [-> | ->%list_elem_of_singleton]; auto.
    + right. right. by apply (proj1 (Forall_forall _ _) Hfor).
Qed.
End main_contract.

(** ** The further properties on the scenarios *)

Lemma convert_file_true_means_converted_witness :
  let w := world fs_tree in
  let w' := (convert_file env_ok (root ++ ["a.bgw"]) "vgmstream-cli" w).2 in
  is_Some (fs w' !! (root ++ ["a.ogg"])) ∧
  (fs w !! (root ++ ["a.ogg"]) = None →
   calls w' = calls w ++ [Decode "vgmstream-cli" (root ++ ["a.wav"]) (root ++ ["a.bgw"]);
                          Encode (root ++ ["a.wav"]) (root ++ ["a.ogg"])] ∧
   fs w' !! (root ++ ["a.wav"]) = None).
Proof.
  intros w w'.
  apply (convert_file_true_means_converted env_ok (root ++ ["a.bgw"])
           "vgmstream-cli" (root ++ ["a.wav"]) (root ++ ["a.ogg"])
           eq_refl eq_refl w w').
  by vm_compute.
Defined.

Lemma convert_file_launches_witness :
  let w := world fs_tree in
  let w' := (convert_file env_silent_decoder (root ++ ["a.bgw"]) "vgmstream-cli" w).2 in
  (calls w' = calls w ∧ fs w' = fs w) ∨
  calls w' = calls w ++ [Decode "vgmstream-cli" (root ++ ["a.wav"]) (root ++ ["a.bgw"])] ∨
  calls w' = calls w ++ [Decode "vgmstream-cli" (root ++ ["a.wav"]) (root ++ ["a.bgw"]);
                         Encode (root ++ ["a.wav"]) (root ++ ["a.ogg"])].
Proof.
  intros w w'.
  apply (convert_file_launches env_silent_decoder (root ++ ["a.bgw"])
           "vgmstream-cli" (root ++ ["a.wav"]) (root ++ ["a.ogg"])
           eq_refl eq_refl w (inr false) w').
  by vm_compute.
Defined.

Lemma convert_file_reports_once_witness :
  let w := world fs_tree in
  let w' := (convert_file env_no_ffmpeg (root ++ ["a.bgw"]) "vgmstream-cli" w).2 in
  ∃ m, out w' = out w ++ [m] ∧ is_convert_msg m = true ∧ false = reports_success m.
Proof.
  intros w w'.
  apply (convert_file_reports_once env_no_ffmpeg (root ++ ["a.bgw"])
           "vgmstream-cli" (root ++ ["a.wav"]) (root ++ ["a.ogg"])
           eq_refl eq_refl w false w').
  by vm_compute.
Defined.

Lemma convert_file_wav_vanished_witness :
  let f1 := <[root ++ ["a.wav"] := File "RIFF"]> fs_tree in
  let f2 := <[root ++ ["a.ogg"] := File "OggS"]> (delete (root ++ ["a.wav"]) f1) in
  convert_file env_encoder_eats_wav (root ++ ["a.bgw"]) "vgmstream-cli" (world fs_tree)
  = (inr false,
     {| fs := f2;
        calls := [Decode "vgmstream-cli" (root ++ ["a.wav"]) (root ++ ["a.bgw"]);
                  Encode (root ++ ["a.wav"]) (root ++ ["a.ogg"])];
        out := [MCmdNotFound "/snd/a.wav"] |}).
Proof.
  intros f1 f2.
  apply (convert_file_wav_vanished env_encoder_eats_wav (root ++ ["a.bgw"])
           "vgmstream-cli" (root ++ ["a.wav"]) (root ++ ["a.ogg"])
           eq_refl eq_refl (world fs_tree) "" f1 "" f2).
  - by vm_compute.
  - reflexivity.
  - vm_compute. by eexists.
  - reflexivity.
  - vm_compute. by eexists.
  - by vm_compute.
Defined.



Lemma find_audio_files_depends_on_audio_entries_witness :
  find_audio_files fs_tree root
  = find_audio_files (<[root ++ ["a.ogg"] := File "OggS"]> fs_tree) root.
Proof.
  apply (find_audio_files_depends_on_audio_entries fs_tree
           (<[root ++ ["a.ogg"] := File "OggS"]> fs_tree) root).
  intros p _ Hnm. rewrite lookup_insert_ne; [done|].
  apply not_eq_sym. apply (audio_name_not_derived (root ++ ["a.bgw"]) _ _ Hnm).
  right. reflexivity.
Defined.

Lemma find_audio_files_subfolder_witness :
  (∀ p, p ∈ find_audio_files fs_nested (root ++ ["bgm"]) ↔
        p ∈ find_audio_files fs_nested root ∧ below (root ++ ["bgm"]) p = true) ∧
  root ∉ find_audio_files fs_nested root.
Proof.
  apply (find_audio_files_subfolder fs_nested root (root ++ ["bgm"])).
  reflexivity.
Defined.

Lemma sorted_any_enumeration_witness :
  sorted [root ++ ["b.SPW"]; root ++ ["a.bgw"]] = find_audio_files fs_tree root.
Proof.
  apply (sorted_any_enumeration fs_tree root [root ++ ["b.SPW"]; root ++ ["a.bgw"]]).
  - apply (bool_decide_unpack _). by vm_compute.
  - intros p. rewrite <- elem_of_find_audio_files.
    replace (find_audio_files fs_tree root)
      with [root ++ ["a.bgw"]; root ++ ["b.SPW"]] by (by vm_compute).
    rewrite !elem_of_cons, !elem_of_nil. tauto.
Defined.

Lemma found_counts_witness :
  let audio_files := find_audio_files fs_hidden root in
  length (filter is_bgw audio_files) + length (filter is_spw audio_files)
  ≤ length audio_files.
Proof.
  intros audio_files.
  destruct (found_counts fs_hidden root) as [Hle _]. exact Hle.
Defined.

Lemma same_stem_is_skipped_witness :
  let r := process_one env_ok "vgmstream-cli" root 2 1 (root ++ ["a.bgw"])
             (mkTally 0 0 0) (world fs_same_stem) in
  ∃ w3, process_one env_ok "vgmstream-cli" root 2 2 (root ++ ["a.spw"])
          (mkTally 1 0 0) r.2
        = (inr (mkTally 1 1 0), w3) ∧
        calls w3 = calls r.2 ∧ fs w3 = fs r.2.
Proof.
  intros r.
  apply (same_stem_is_skipped env_ok "vgmstream-cli" root 2 1 (root ++ ["a.bgw"])
           (mkTally 0 0 0) (world fs_same_stem) (mkTally 1 0 0) r.2
           2 [] (mkTally 1 0 0) r.2 2 (root ++ ["a.spw"]) (mkTally 1 0 0)).
  - exact env_ok_contract.
  - by vm_compute.
  - reflexivity.
  - reflexivity.
  - reflexivity.
  - reflexivity.
Defined.

Lemma main_exits_before_converting_witness :
  let w := world fs_tree in
  let w' := (main env_no_ffmpeg prog ["/snd"] w).2 in
  (fs w !! root ≠ Some Dir → calls w' = calls w ∧ fs w' = fs w) ∧
  (calls w' = calls w ∨
   calls w' = calls w ++ [ProbeDecoder "vgmstream-cli"] ∨
   calls w' = calls w ++ [ProbeDecoder "vgmstream-cli"; ProbeEncoder]).
Proof.
  intros w w'.
  apply (main_exits_before_converting env_no_ffmpeg prog "/snd" [] w 1 w').
  by vm_compute.
Defined.

Lemma main_report_witness :
  let w := world fs_tree in
  let w' := (main env_ok prog ["/snd"] w).2 in
  ∃ rc1 err1 f1 rc2 err2 f2 rels ms,
    env_ok (calls w) (fs w) (ProbeDecoder "vgmstream-cli") = Completed rc1 err1 f1 ∧
    env_ok (calls w ++ [ProbeDecoder "vgmstream-cli"]) f1 ProbeEncoder
    = Completed rc2 err2 f2 ∧
    let audio_files := find_audio_files f2 root in
    let N := length audio_files in
    let c := length (List.filter is_ok_line ms) in
    let s := length (List.filter is_skip_line ms) in
    let f := length (List.filter is_fail_line ms) in
    out w' = out w
             ++ [MChecking; MDecoderOk "vgmstream-cli"; MEncoderOk; MBlank;
                 MScanning root;
                 MFound (length (filter is_bgw audio_files))
                        (length (filter is_spw audio_files)) N;
                 MConverting]
             ++ report N 1 rels ms ++ [MSummary c s f] ∧
    0 < N ∧ c + s + f = N ∧
    Forall2 (λ p rel_path, Pth.relative_to p root = inr rel_path) audio_files rels ∧
    Forall2 outcome_line audio_files ms.
Proof.
  intros w w'.
  apply (main_report env_ok prog "/snd" [] w w').
  by vm_compute.
Defined.

Lemma main_launch_count_witness :
  let w' := (main env_ok prog ["/snd"] (world fs_tree)).2 in
  0 + 2 + 2 * 2 + 0 ≤ length (calls w') ∧ length (calls w') ≤ 0 + 2 + 2 * (2 + 0).
Proof.
  intros w'.
  apply (main_launch_count env_ok prog "/snd" [] (world fs_tree) w' 2 0 0).
  - by vm_compute.
  - by vm_compute.
Defined.

Lemma main_touches_only_derived_witness :
  fs (main env_ok prog ["/snd"] (world fs_tree)).2 !! (root ++ ["c.txt"])
  = Some (File "txt").
Proof.
  apply (main_touches_only_derived env_ok env_ok_contract prog ["/snd"]
           (world fs_tree) (inr tt) _ (root ++ ["c.txt"])).
  - by vm_compute.
  - intros arg1 rest p d _ _ Hd Heq. subst d.
    apply derived_name in Hd as [Hd|Hd]; by vm_compute in Hd.
Defined.

Lemma main_keeps_inputs_witness :
  let w' := (main env_ok prog ["/snd"] (world fs_tree)).2 in
  (∀ q, audio_name (Pth.name q) → fs w' !! q = fs_tree !! q) ∧
  (∀ folder, find_audio_files (fs w') folder = find_audio_files fs_tree folder).
Proof.
  intros w'.
  apply (main_keeps_inputs env_ok env_ok_contract prog ["/snd"]
           (world fs_tree) (inr tt) w').
  by vm_compute.
Defined.

Lemma main_no_failure_leaves_outputs_witness :
  let w' := (main env_ok prog ["/snd"] (world fs_tree)).2 in
  has_ogg (fs w') (root ++ ["a.bgw"]) ∧
  (0 = 0 → ∀ wav_path, Pth.with_suffix (root ++ ["a.bgw"]) ".wav" = inr wav_path →
           fs w' !! wav_path = None).
Proof.
  intros w'.
  apply (main_no_failure_leaves_outputs env_ok env_ok_contract prog "/snd" []
           (world fs_tree) w' 2 0).
  - by vm_compute.
  - by vm_compute.
  - apply (bool_decide_unpack _). by vm_compute.
Defined.

Lemma main_launches_for_discovered_witness :
  let w := world fs_tree in
  let w' := (main env_ok prog ["/snd"] w).2 in
  ∃ l, calls w' = calls w ++ l ∧
       ∀ c, c ∈ l →
         c = ProbeDecoder "vgmstream-cli" ∨ c = ProbeEncoder ∨
         ∃ p, p ∈ find_audio_files (fs w) root ∧ file_call "vgmstream-cli" p c.
Proof.
  intros w w'.
  apply (main_launches_for_discovered env_ok env_ok_contract prog "/snd" []
           w (inr tt) w').
  by vm_compute.
Defined.
